(** * CryptoHalHidl: the HIDL crypto plugin wrapper of libmediadrm

    A shallow embedding of [drm/libmediadrm/CryptoHalHidl.cpp].  The wrapper
    object is a record of its member fields, every method is a function from
    the object (and the method's arguments) to the method's result, the new
    object and the list of remote transactions the method issued.  Remote
    interface objects (factories and plugins) are records of their methods'
    replies. *)

From Stdlib Require Import ZArith List Bool String Lia Sorted.
From stdpp Require Import base gmap strings list.

Local Open Scope Z_scope.

(** ** Machine integers

    Fixed-width integers are values of [Z]; conversions between widths are
    written out. *)

(** Conversion to an unsigned integer type of [bits] bits. *)
Definition wrap_unsigned (bits x : Z) : Z := x mod 2 ^ bits.

(** Conversion to a signed (two's complement) integer type of [bits] bits. *)
Definition wrap_signed (bits x : Z) : Z :=
  (x + 2 ^ (bits - 1)) mod 2 ^ bits - 2 ^ (bits - 1).

Definition INT32_MIN : Z := - 2 ^ 31.
Definition INT32_MAX : Z := 2 ^ 31 - 1.

Definition is_int32 (x : Z) : Prop := INT32_MIN <= x <= INT32_MAX.
Definition is_unsigned (bits x : Z) : Prop := 0 <= x < 2 ^ bits.

(** [uint8_t] buffers: [Vector<uint8_t>], [hidl_vec<uint8_t>], [uint8_t[16]]. *)
Abbreviation bytes := (list Byte.byte).

(** ** Types of the local decrypt interface ([CryptoPlugin], CryptoAPI.h) *)

Module CryptoPlugin.

(** [CryptoPlugin::Mode].  A C++ enum object can hold a value that is none
    of its enumerators; [kMode_unlisted] stands for every such value. *)
Inductive Mode : Type :=
| kMode_Unencrypted
| kMode_AES_CTR
| kMode_AES_WV
| kMode_AES_CBC
| kMode_unlisted.

Record Pattern : Type := { mEncryptBlocks : Z; mSkipBlocks : Z }.

Record SubSample : Type :=
  { mNumBytesOfClearData : Z; mNumBytesOfEncryptedData : Z }.

End CryptoPlugin.

#[global] Instance CryptoPlugin_Mode_eq_dec : EqDecision CryptoPlugin.Mode.
Proof. solve_decision. Defined.

(** ** Wire types of the drm HAL, revision 1.0 *)

Module V1_0.

(** [BufferType_unlisted] stands for every value that is neither
    enumerator. *)
Inductive BufferType : Type :=
| SHARED_MEMORY
| NATIVE_HANDLE
| BufferType_unlisted.

Inductive Mode : Type := UNENCRYPTED | AES_CTR | AES_CBC_CTS | AES_CBC.

Record Pattern : Type := { encryptBlocks : Z; skipBlocks : Z }.

Record SubSample : Type :=
  { numBytesOfClearData : Z; numBytesOfEncryptedData : Z }.

Record SharedBuffer : Type := { bufferId : Z; offset : Z; size : Z }.

(** [hidl_handle]: an opaque native handle. *)
Definition hidl_handle : Type := Z.

Record DestinationBuffer : Type :=
  { type : BufferType;
    nonsecureMemory : SharedBuffer;
    secureMemory : hidl_handle }.

End V1_0.

(** [HidlMemory]: a shared memory heap; the wrapper reads only its size. *)
Module HidlMemory.
Record t : Type := { size : Z }.
End HidlMemory.

(** ** Remote transactions *)

(** The arguments of [ICryptoPlugin::decrypt] and of [decrypt_1_2]. *)
Record DecryptArgs : Type :=
  { arg_secure : bool;
    arg_keyId : bytes;
    arg_iv : bytes;
    arg_mode : V1_0.Mode;
    arg_pattern : V1_0.Pattern;
    arg_subSamples : list V1_0.SubSample;
    arg_source : V1_0.SharedBuffer;
    arg_offset : Z;
    arg_destination : V1_0.DestinationBuffer }.

(** One entry per call through a remote interface.  Factories are named by
    their index in [mFactories]. *)
Inductive RemoteCall : Type :=
| Call_Factory_isCryptoSchemeSupported (factory : nat) (uuid : bytes)
| Call_Factory_createPlugin (factory : nat) (uuid : bytes) (initData : bytes)
| Call_castFrom_V1_2
| Call_requiresSecureDecoderComponent (mime : string)
| Call_setSharedBufferBase (base : option HidlMemory.t) (bufferId : Z)
| Call_decrypt (args : DecryptArgs)
| Call_decrypt_1_2 (args : DecryptArgs)
| Call_notifyResolution (width height : Z)
| Call_setMediaDrmSession (sessionId : bytes).

(** [Return<T>]: the result of a transaction, or a transport failure.  For a
    method that replies through a callback, [T] is the tuple the callback
    receives; the callback does not run when the transaction fails. *)
Inductive Return (T : Type) : Type :=
| Return_isOk (value : T)
| Return_failed.
Arguments Return_isOk {T} value.
Arguments Return_failed {T}.

(** ** Method outcomes

    A method either returns a value, or the process dies on a null
    interface pointer; both carry the remote calls issued so far. *)
Inductive Exec (A : Type) : Type :=
| Returns (value : A) (calls : list RemoteCall)
| Aborts (calls : list RemoteCall).
Arguments Returns {A} value calls.
Arguments Aborts {A} calls.

Definition calls_of {A} (m : Exec A) : list RemoteCall :=
  match m with
  | Returns _ calls => calls
  | Aborts calls => calls
  end.

#[export] Instance Exec_ret : MRet Exec := fun A a => Returns a [].

#[export] Instance Exec_bind : MBind Exec := fun A B k m =>
  match m with
  | Returns a calls =>
      match k a with
      | Returns b calls' => Returns b (calls ++ calls')
      | Aborts calls' => Aborts (calls ++ calls')
      end
  | Aborts calls => Aborts calls
  end.

(** A remote call and the reply it received. *)
Definition remote {A} (call : RemoteCall) (reply : A) : Exec A :=
  Returns reply [call].

(** A call through a null interface pointer. *)
Definition null_dereference {A} : Exec A := Aborts [].

(** [toHidlArray16]: a null pointer becomes the value-initialised array. *)
Definition toHidlArray16 (ptr : option bytes) : bytes :=
  match ptr with
  | None => repeat Byte.x00 16
  | Some array => array
  end.

(** [toHidlVec]: a copy of the buffer. *)
Definition toHidlVec (vector : bytes) : bytes := vector.

(** [toString8]. *)
Definition toString8 (hString : string) : string := hString.


(** Unfolds the sequencing of method outcomes. *)
Ltac exec_unfold :=
  unfold mbind, mret, Exec_bind, Exec_ret, remote, null_dereference in *;
  simpl in *.

(** ** The wrapper *)

Section Wrapper.

(** *** What the headers provide

    The declarations below are not part of CryptoHalHidl.cpp; the file is
    verified for every choice of them. *)

(** Width in bits of [size_t] and [ssize_t]. *)
Variable size_bits : Z.

(** Width in bits of [hidl_memory::size()] and of the [offset] and [size]
    fields of [SharedBuffer]. *)
Variable mem_bits : Z.

(** The [status_t] codes of utils/Errors.h and MediaErrors.h. *)
Variables OK NO_INIT UNKNOWN_ERROR DEAD_OBJECT ERROR_UNSUPPORTED : Z.

(** The [Status] enums of the drm HAL revisions 1.0 and 1.2. *)
Variables Status Status_V1_2 : Type.
Context {Status_eq_dec : EqDecision Status}.
Context {Status_V1_2_eq_dec : EqDecision Status_V1_2}.
Variable Status_OK : Status.
Variable Status_V1_2_OK : Status_V1_2.

(** [DrmUtils::toStatusT], for each of the two [Status] enums. *)
Variable toStatusT : Status -> Z.
Variable toStatusT_1_2 : Status_V1_2 -> Z.

(** [drm::V1_4::LogMessage]. *)
Variable LogMessage : Type.

Definition SIZE_MAX : Z := 2 ^ size_bits - 1.

(** *** Remote interfaces *)

(** [drm::V1_2::ICryptoPlugin]: the method the wrapper calls on it. *)
Record ICryptoPlugin_V1_2 : Type :=
  { ICryptoPlugin_decrypt_1_2 :
      DecryptArgs -> Return (Status_V1_2 * Z * string) }.

(** [drm::V1_0::ICryptoPlugin]; [ICryptoPlugin_castFrom_V1_2] is the result
    of [drm::V1_2::ICryptoPlugin::castFrom] on the plugin. *)
Record ICryptoPlugin : Type :=
  { ICryptoPlugin_requiresSecureDecoderComponent : string -> Return bool;
    ICryptoPlugin_setSharedBufferBase :
      option HidlMemory.t -> Z -> Return unit;
    ICryptoPlugin_decrypt : DecryptArgs -> Return (Status * Z * string);
    ICryptoPlugin_notifyResolution : Z -> Z -> Return unit;
    ICryptoPlugin_setMediaDrmSession : bytes -> Return Status;
    ICryptoPlugin_castFrom_V1_2 : option ICryptoPlugin_V1_2 }.

(** [drm::V1_0::ICryptoFactory].  The wrapper reads the [Return<bool>] of
    [isCryptoSchemeSupported] without testing [isOk]; the model covers the
    transactions that succeed. *)
Record ICryptoFactory : Type :=
  { ICryptoFactory_isCryptoSchemeSupported : bytes -> bool;
    ICryptoFactory_createPlugin :
      bytes -> bytes -> Return (Status * option ICryptoPlugin) }.

(** [DrmUtils::GetLogMessages<drm::V1_4::ICryptoPlugin>]. *)
Variable GetLogMessages :
  option ICryptoPlugin -> list LogMessage -> Exec (Z * list LogMessage).

(** What the service manager and [getService] answer at construction. *)
Record HalServices : Type :=
  { defaultServiceManager1_2 : bool;
    listManifestByInterface_V1_0 : Return (list string);
    listManifestByInterface_V1_1 : Return (list string);
    V1_0_getService : string -> option ICryptoFactory;
    V1_1_getService : string -> option ICryptoFactory;
    getService_default : option ICryptoFactory }.

(** *** The object *)

Record CryptoHalHidl : Type :=
  { mFactories : list ICryptoFactory;
    mPlugin : option ICryptoPlugin;
    mPluginV1_2 : option ICryptoPlugin_V1_2;
    mInitCheck : Z;
    mHeapSizes : gmap Z Z;
    mHeapSeqNum : Z }.

(** Assignments to the member fields. *)
Definition set_mPlugin (plugin : option ICryptoPlugin) (this : CryptoHalHidl)
  : CryptoHalHidl :=
  {| mFactories := mFactories this; mPlugin := plugin;
     mPluginV1_2 := mPluginV1_2 this; mInitCheck := mInitCheck this;
     mHeapSizes := mHeapSizes this; mHeapSeqNum := mHeapSeqNum this |}.

Definition set_mPluginV1_2 (plugin : option ICryptoPlugin_V1_2)
    (this : CryptoHalHidl) : CryptoHalHidl :=
  {| mFactories := mFactories this; mPlugin := mPlugin this;
     mPluginV1_2 := plugin; mInitCheck := mInitCheck this;
     mHeapSizes := mHeapSizes this; mHeapSeqNum := mHeapSeqNum this |}.

Definition set_mInitCheck (status : Z) (this : CryptoHalHidl)
  : CryptoHalHidl :=
  {| mFactories := mFactories this; mPlugin := mPlugin this;
     mPluginV1_2 := mPluginV1_2 this; mInitCheck := status;
     mHeapSizes := mHeapSizes this; mHeapSeqNum := mHeapSeqNum this |}.

Definition set_mHeapSizes (sizes : gmap Z Z) (this : CryptoHalHidl)
  : CryptoHalHidl :=
  {| mFactories := mFactories this; mPlugin := mPlugin this;
     mPluginV1_2 := mPluginV1_2 this; mInitCheck := mInitCheck this;
     mHeapSizes := sizes; mHeapSeqNum := mHeapSeqNum this |}.

Definition set_mHeapSeqNum (seqNum : Z) (this : CryptoHalHidl)
  : CryptoHalHidl :=
  {| mFactories := mFactories this; mPlugin := mPlugin this;
     mPluginV1_2 := mPluginV1_2 this; mInitCheck := mInitCheck this;
     mHeapSizes := mHeapSizes this; mHeapSeqNum := seqNum |}.

(** [makeCryptoFactories]: the registered 1.0 instances, then the registered
    1.1 instances, each kept when [getService] finds it; the default
    passthrough service when none was found. *)
Definition makeCryptoFactories (services : HalServices)
  : list ICryptoFactory :=
  let registered (listing : Return (list string))
                 (getService : string -> option ICryptoFactory) :=
    match listing with
    | Return_isOk instances => omap getService instances
    | Return_failed => []
    end in
  let factories :=
    if defaultServiceManager1_2 services
    then registered (listManifestByInterface_V1_0 services)
                    (V1_0_getService services)
         ++ registered (listManifestByInterface_V1_1 services)
                       (V1_1_getService services)
    else [] in
  match factories with
  | [] =>
      match getService_default services with
      | Some passthrough => [passthrough]
      | None => []
      end
  | _ :: _ => factories
  end.

(** The constructor. *)
Definition CryptoHalHidl_new (services : HalServices) : CryptoHalHidl :=
  let factories := makeCryptoFactories services in
  {| mFactories := factories;
     mPlugin := None;
     mPluginV1_2 := None;
     mInitCheck :=
       if (length factories =? 0)%nat then ERROR_UNSUPPORTED else NO_INIT;
     mHeapSizes := ∅;
     mHeapSeqNum := 0 |}.

(** [makeCryptoPlugin]: the plugin the factory created, null unless the
    factory replied with status OK; a failed transaction sets [mInitCheck]
    to DEAD_OBJECT.  [index] names the factory in the call list. *)
Definition makeCryptoPlugin (this : CryptoHalHidl) (index : nat)
    (factory : ICryptoFactory) (uuid : bytes) (initData : bytes)
  : Exec (option ICryptoPlugin * CryptoHalHidl) :=
  hResult ← remote
    (Call_Factory_createPlugin index (toHidlArray16 (Some uuid))
       (toHidlVec initData))
    (ICryptoFactory_createPlugin factory (toHidlArray16 (Some uuid))
       (toHidlVec initData));
  match hResult with
  | Return_isOk (status, hPlugin) =>
      mret (if decide (status = Status_OK) then hPlugin else None, this)
  | Return_failed => mret (None, set_mInitCheck DEAD_OBJECT this)
  end.

Definition initCheck (this : CryptoHalHidl) : Z := mInitCheck this.

(** The loop of [isCryptoSchemeSupported], from factory [index] on. *)
Fixpoint isCryptoSchemeSupported_from (index : nat)
    (factories : list ICryptoFactory) (uuid : bytes) : Exec bool :=
  match factories with
  | [] => mret false
  | factory :: rest =>
      supported ← remote (Call_Factory_isCryptoSchemeSupported index uuid)
        (ICryptoFactory_isCryptoSchemeSupported factory uuid);
      if supported : bool then mret true
      else isCryptoSchemeSupported_from (S index) rest uuid
  end.

Definition isCryptoSchemeSupported (this : CryptoHalHidl) (uuid : bytes)
  : Exec bool :=
  isCryptoSchemeSupported_from 0 (mFactories this) uuid.

(** The loop of [createPlugin], from factory [index] on. *)
Fixpoint createPlugin_from (index : nat) (factories : list ICryptoFactory)
    (this : CryptoHalHidl) (uuid : bytes) (data : bytes)
  : Exec CryptoHalHidl :=
  match factories with
  | [] => mret this
  | factory :: rest =>
      supported ← remote (Call_Factory_isCryptoSchemeSupported index uuid)
        (ICryptoFactory_isCryptoSchemeSupported factory uuid);
      this ←
        (if supported : bool then
           '(plugin, this) ← makeCryptoPlugin this index factory uuid data;
           let this := set_mPlugin plugin this in
           match plugin with
           | Some created =>
               v1_2 ← remote Call_castFrom_V1_2
                 (ICryptoPlugin_castFrom_V1_2 created);
               mret (set_mPluginV1_2 v1_2 this)
           | None => mret this
           end
         else mret this);
      createPlugin_from (S index) rest this uuid data
  end.

(** [createPlugin]: every supporting factory is asked in turn, each
    overwriting [mPlugin]; [mInitCheck] is updated only from NO_INIT. *)
Definition createPlugin (this : CryptoHalHidl) (uuid : bytes) (data : bytes)
  : Exec (Z * CryptoHalHidl) :=
  this ← createPlugin_from 0 (mFactories this) this uuid data;
  let this :=
    if mInitCheck this =? NO_INIT then
      set_mInitCheck
        (match mPlugin this with None => ERROR_UNSUPPORTED | Some _ => OK end)
        this
    else this in
  mret (mInitCheck this, this).

Definition destroyPlugin (this : CryptoHalHidl) : Exec (Z * CryptoHalHidl) :=
  if negb (mInitCheck this =? OK) then mret (mInitCheck this, this)
  else
    mret (OK, set_mInitCheck NO_INIT
                (set_mPluginV1_2 None (set_mPlugin None this))).

(** The methods below call through [mPlugin] once [mInitCheck] is OK; with
    a null [mPlugin] that is a null dereference. *)
Definition requiresSecureDecoderComponent (this : CryptoHalHidl)
    (mime : string) : Exec bool :=
  if negb (mInitCheck this =? OK) then mret false
  else
    match mPlugin this with
    | None => null_dereference
    | Some plugin =>
        hResult ← remote (Call_requiresSecureDecoderComponent mime)
          (ICryptoPlugin_requiresSecureDecoderComponent plugin mime);
        match hResult with
        | Return_failed => mret false
        | Return_isOk required => mret required
        end
    end.

(** [setHeapBase].  [heap] is [None] for a null pointer.  The increment of
    the [int32_t] counter wraps around; [heap->size()] is converted to the
    [size_t] that the map holds. *)
Definition setHeapBase (this : CryptoHalHidl) (heap : option HidlMemory.t)
  : Exec (Z * CryptoHalHidl) :=
  match heap with
  | None => mret (-1, this)
  | Some memory =>
      if mHeapSeqNum this <? 0 then mret (-1, this)
      else if negb (mInitCheck this =? OK) then mret (-1, this)
      else
        let seqNum := mHeapSeqNum this in
        let this := set_mHeapSeqNum (wrap_signed 32 (seqNum + 1)) this in
        let bufferId := wrap_unsigned 32 seqNum in
        let this :=
          set_mHeapSizes
            (<[seqNum := wrap_unsigned size_bits (HidlMemory.size memory)]>
               (mHeapSizes this)) this in
        match mPlugin this with
        | None => null_dereference
        | Some plugin =>
            _ ← remote (Call_setSharedBufferBase (Some memory) bufferId)
              (ICryptoPlugin_setSharedBufferBase plugin (Some memory)
                 bufferId);
            mret (seqNum, this)
        end
  end.

(** [clearHeapBase]: the remote base is reset with a null [hidl_memory]
    when a plugin is bound, and the entry removed. *)
Definition clearHeapBase (this : CryptoHalHidl) (seqNum : Z)
  : Exec CryptoHalHidl :=
  match mHeapSizes this !! seqNum with
  | Some _ =>
      _ ← match mPlugin this with
          | Some plugin =>
              let bufferId := wrap_unsigned 32 seqNum in
              remote (Call_setSharedBufferBase None bufferId)
                (ICryptoPlugin_setSharedBufferBase plugin None bufferId)
          | None => mret (Return_isOk tt)
          end;
      mret (set_mHeapSizes (delete seqNum (mHeapSizes this)) this)
  | None => mret this
  end.

(** [checkSharedBuffer].  The comparison operands are brought to the wider
    of the two types [size_t] and the type of the buffer fields; the sum
    [buffer.offset + buffer.size] is computed in the type of the fields. *)
Definition checkSharedBuffer (this : CryptoHalHidl)
    (buffer : V1_0.SharedBuffer) : Z :=
  let seqNum := wrap_signed 32 (V1_0.bufferId buffer) in
  match mHeapSizes this !! seqNum with
  | None => UNKNOWN_ERROR
  | Some heapSize =>
      let wider := Z.max size_bits mem_bits in
      if (heapSize <?
            wrap_unsigned mem_bits (V1_0.offset buffer + V1_0.size buffer))
         || (wrap_unsigned wider (SIZE_MAX - V1_0.offset buffer) <?
               V1_0.size buffer)
      then UNKNOWN_ERROR
      else OK
  end.

(** The loop of [decrypt] that fills [stdSubSamples]: one [push_back] per
    subsample, in index order. *)
Fixpoint decrypt_subSamples (subSamples : list CryptoPlugin.SubSample)
    (stdSubSamples : list V1_0.SubSample) : list V1_0.SubSample :=
  match subSamples with
  | [] => stdSubSamples
  | sample :: rest =>
      let subSample :=
        {| V1_0.numBytesOfClearData :=
             CryptoPlugin.mNumBytesOfClearData sample;
           V1_0.numBytesOfEncryptedData :=
             CryptoPlugin.mNumBytesOfEncryptedData sample |} in
      decrypt_subSamples rest (stdSubSamples ++ [subSample])
  end.

(** The locals of [decrypt] that the reply callbacks assign: [err],
    [bytesWritten] and the string behind [errorDetailMsg] ([None] for a
    null pointer). *)
Record DecryptLocals : Type :=
  { err : Z; bytesWritten : Z; detail : option string }.

(** The callback passed to [decrypt_1_2]. *)
Definition decrypt_1_2_callback (locals : DecryptLocals)
    (status : Status_V1_2) (hBytesWritten : Z) (hDetailedError : string)
  : DecryptLocals :=
  let locals :=
    if decide (status = Status_V1_2_OK) then
      {| err := err locals;
         bytesWritten := hBytesWritten;
         detail :=
           match detail locals with
           | Some _ => Some (toString8 hDetailedError)
           | None => None
           end |}
    else locals in
  {| err := toStatusT_1_2 status;
     bytesWritten := bytesWritten locals;
     detail := detail locals |}.

(** The callback passed to the 1.0 [decrypt]. *)
Definition decrypt_callback (locals : DecryptLocals)
    (status : Status) (hBytesWritten : Z) (hDetailedError : string)
  : DecryptLocals :=
  let locals :=
    if decide (status = Status_OK) then
      {| err := err locals;
         bytesWritten := hBytesWritten;
         detail :=
           match detail locals with
           | Some _ => Some (toString8 hDetailedError)
           | None => None
           end |}
    else locals in
  {| err := toStatusT status;
     bytesWritten := bytesWritten locals;
     detail := detail locals |}.

(** The remote call of [decrypt]: [decrypt_1_2] on [mPluginV1_2] when that
    is non-null, the 1.0 [decrypt] on [mPlugin] otherwise.  The result is
    [hResult.isOk()] and the locals after the callback. *)
Definition decrypt_remote (this : CryptoHalHidl) (args : DecryptArgs)
    (locals : DecryptLocals) : Exec (bool * DecryptLocals) :=
  match mPluginV1_2 this with
  | Some pluginV1_2 =>
      hResult ← remote (Call_decrypt_1_2 args)
        (ICryptoPlugin_decrypt_1_2 pluginV1_2 args);
      match hResult with
      | Return_isOk (status, hBytesWritten, hDetailedError) =>
          mret (true,
                decrypt_1_2_callback locals status hBytesWritten
                  hDetailedError)
      | Return_failed => mret (false, locals)
      end
  | None =>
      match mPlugin this with
      | None => null_dereference
      | Some plugin =>
          hResult ← remote (Call_decrypt args)
            (ICryptoPlugin_decrypt plugin args);
          match hResult with
          | Return_isOk (status, hBytesWritten, hDetailedError) =>
              mret (true,
                    decrypt_callback locals status hBytesWritten
                      hDetailedError)
          | Return_failed => mret (false, locals)
          end
      end
  end.

(** The end of [decrypt], after the remote call.  A [status_t] converts to
    [ssize_t] unchanged; [bytesWritten] is a [uint32_t] and its conversion
    to [ssize_t] is written out. *)
Definition decrypt_return (this : CryptoHalHidl) (isOk : bool)
    (locals : DecryptLocals) : Z * option string * CryptoHalHidl :=
  let err := if isOk then err locals else DEAD_OBJECT in
  if err =? OK then
    (wrap_signed size_bits (bytesWritten locals), detail locals, this)
  else (err, detail locals, this).

(** [decrypt].  The result is the [ssize_t] returned, the string behind
    [errorDetailMsg] afterwards, and the object. *)
Definition decrypt (this : CryptoHalHidl) (keyId iv : option bytes)
    (mode : CryptoPlugin.Mode) (pattern : CryptoPlugin.Pattern)
    (hSource : V1_0.SharedBuffer) (offset : Z)
    (subSamples : list CryptoPlugin.SubSample)
    (hDestination : V1_0.DestinationBuffer) (errorDetailMsg : option string)
  : Exec (Z * option string * CryptoHalHidl) :=
  if negb (mInitCheck this =? OK) then
    mret (mInitCheck this, errorDetailMsg, this)
  else
    match
      match mode with
      | CryptoPlugin.kMode_Unencrypted => Some V1_0.UNENCRYPTED
      | CryptoPlugin.kMode_AES_CTR => Some V1_0.AES_CTR
      | CryptoPlugin.kMode_AES_WV => Some V1_0.AES_CBC_CTS
      | CryptoPlugin.kMode_AES_CBC => Some V1_0.AES_CBC
      | CryptoPlugin.kMode_unlisted => None
      end
    with
    | None => mret (UNKNOWN_ERROR, errorDetailMsg, this)
    | Some hMode =>
        let hPattern :=
          {| V1_0.encryptBlocks := CryptoPlugin.mEncryptBlocks pattern;
             V1_0.skipBlocks := CryptoPlugin.mSkipBlocks pattern |} in
        let hSubSamples := decrypt_subSamples subSamples [] in
        match
          match V1_0.type hDestination with
          | V1_0.SHARED_MEMORY =>
              let status :=
                checkSharedBuffer this (V1_0.nonsecureMemory hDestination) in
              if negb (status =? OK) then inl status else inr false
          | V1_0.NATIVE_HANDLE => inr true
          | V1_0.BufferType_unlisted => inl UNKNOWN_ERROR
          end
        with
        | inl status => mret (status, errorDetailMsg, this)
        | inr secure =>
            let status := checkSharedBuffer this hSource in
            if negb (status =? OK) then mret (status, errorDetailMsg, this)
            else
              let locals :=
                {| err := UNKNOWN_ERROR; bytesWritten := 0;
                   detail := errorDetailMsg |} in
              let args :=
                {| arg_secure := secure;
                   arg_keyId := toHidlArray16 keyId;
                   arg_iv := toHidlArray16 iv;
                   arg_mode := hMode;
                   arg_pattern := hPattern;
                   arg_subSamples := hSubSamples;
                   arg_source := hSource;
                   arg_offset := offset;
                   arg_destination := hDestination |} in
              '(isOk, locals) ← decrypt_remote this args locals;
              mret (decrypt_return this isOk locals)
        end
    end.

Definition notifyResolution (this : CryptoHalHidl) (width height : Z)
  : Exec CryptoHalHidl :=
  if negb (mInitCheck this =? OK) then mret this
  else
    match mPlugin this with
    | None => null_dereference
    | Some plugin =>
        _ ← remote (Call_notifyResolution width height)
          (ICryptoPlugin_notifyResolution plugin width height);
        mret this
    end.

Definition setMediaDrmSession (this : CryptoHalHidl) (sessionId : bytes)
  : Exec (Z * CryptoHalHidl) :=
  if negb (mInitCheck this =? OK) then mret (mInitCheck this, this)
  else
    match mPlugin this with
    | None => null_dereference
    | Some plugin =>
        err ← remote (Call_setMediaDrmSession (toHidlVec sessionId))
          (ICryptoPlugin_setMediaDrmSession plugin (toHidlVec sessionId));
        match err with
        | Return_isOk status => mret (toStatusT status, this)
        | Return_failed => mret (DEAD_OBJECT, this)
        end
    end.

Definition getLogMessages (this : CryptoHalHidl) (logs : list LogMessage)
  : Exec (Z * list LogMessage) :=
  GetLogMessages (mPlugin this) logs.

(** *** Sequences of calls on one object *)

Inductive Op : Type :=
| Op_initCheck
| Op_isCryptoSchemeSupported (uuid : bytes)
| Op_createPlugin (uuid : bytes) (data : bytes)
| Op_destroyPlugin
| Op_requiresSecureDecoderComponent (mime : string)
| Op_setHeapBase (heap : option HidlMemory.t)
| Op_clearHeapBase (seqNum : Z)
| Op_decrypt (keyId iv : option bytes) (mode : CryptoPlugin.Mode)
    (pattern : CryptoPlugin.Pattern) (hSource : V1_0.SharedBuffer)
    (offset : Z) (subSamples : list CryptoPlugin.SubSample)
    (hDestination : V1_0.DestinationBuffer) (errorDetailMsg : option string)
| Op_notifyResolution (width height : Z)
| Op_setMediaDrmSession (sessionId : bytes)
| Op_getLogMessages (logs : list LogMessage).

Inductive Result : Type :=
| Result_status (status : Z)
| Result_bool (value : bool)
| Result_seqNum (seqNum : Z)
| Result_void
| Result_decrypt (result : Z) (errorDetailMsg : option string)
| Result_logs (status : Z) (logs : list LogMessage).

(** One call: the method's result and the object afterwards. *)
Definition step (this : CryptoHalHidl) (op : Op)
  : Exec (Result * CryptoHalHidl) :=
  match op with
  | Op_initCheck => mret (Result_status (initCheck this), this)
  | Op_isCryptoSchemeSupported uuid =>
      supported ← isCryptoSchemeSupported this uuid;
      mret (Result_bool supported, this)
  | Op_createPlugin uuid data =>
      '(status, this) ← createPlugin this uuid data;
      mret (Result_status status, this)
  | Op_destroyPlugin =>
      '(status, this) ← destroyPlugin this;
      mret (Result_status status, this)
  | Op_requiresSecureDecoderComponent mime =>
      required ← requiresSecureDecoderComponent this mime;
      mret (Result_bool required, this)
  | Op_setHeapBase heap =>
      '(seqNum, this) ← setHeapBase this heap;
      mret (Result_seqNum seqNum, this)
  | Op_clearHeapBase seqNum =>
      this ← clearHeapBase this seqNum;
      mret (Result_void, this)
  | Op_decrypt keyId iv mode pattern hSource offset subSamples hDestination
      errorDetailMsg =>
      '(result, errorDetailMsg, this) ←
        decrypt this keyId iv mode pattern hSource offset subSamples
          hDestination errorDetailMsg;
      mret (Result_decrypt result errorDetailMsg, this)
  | Op_notifyResolution width height =>
      this ← notifyResolution this width height;
      mret (Result_void, this)
  | Op_setMediaDrmSession sessionId =>
      '(status, this) ← setMediaDrmSession this sessionId;
      mret (Result_status status, this)
  | Op_getLogMessages logs =>
      '(status, logs) ← getLogMessages this logs;
      mret (Result_logs status logs, this)
  end.

(** [execution this history this']: the calls of [history], each with the
    result it returned, take the object from [this] to [this']. *)
Inductive execution
  : CryptoHalHidl -> list (Op * Result) -> CryptoHalHidl -> Prop :=
| execution_nil this : execution this [] this
| execution_cons this op result calls this' history this'' :
    step this op = Returns (result, this') calls ->
    execution this' history this'' ->
    execution this ((op, result) :: history) this''.

(** The objects a program can hold: a constructed object after any
    sequence of calls that returned. *)
Definition reachable (this : CryptoHalHidl) : Prop :=
  exists services history,
    execution (CryptoHalHidl_new services) history this.

(** Runs the calls of [ops] in order; [None] when one of them does not
    return. *)
Fixpoint run (this : CryptoHalHidl) (ops : list Op)
  : option (list (Op * Result) * CryptoHalHidl) :=
  match ops with
  | [] => Some ([], this)
  | op :: rest =>
      match step this op with
      | Returns (result, this') _ =>
          match run this' rest with
          | Some (history, final) => Some ((op, result) :: history, final)
          | None => None
          end
      | Aborts _ => None
      end
  end.

(** The sequence numbers that the [setHeapBase] calls of a history
    returned, failures (-1) left out. *)
Fixpoint heap_seqNums (history : list (Op * Result)) : list Z :=
  match history with
  | [] => []
  | (Op_setHeapBase _, Result_seqNum seqNum) :: rest =>
      if seqNum =? -1 then heap_seqNums rest else seqNum :: heap_seqNums rest
  | _ :: rest => heap_seqNums rest
  end.

(** *** Statements of the specification, in its own words *)

(** A shared-memory buffer lies within a registered heap: its [bufferId]
    names an entry of the heap-size map, and offset plus size, as integers,
    do not exceed the registered size. *)
Definition within_registered_heap (this : CryptoHalHidl)
    (buffer : V1_0.SharedBuffer) : Prop :=
  exists heapSize,
    mHeapSizes this !! wrap_signed 32 (V1_0.bufferId buffer) = Some heapSize
    /\ V1_0.offset buffer + V1_0.size buffer <= heapSize.

(** The fields of a buffer are unsigned, and its offset is a value of
    [size_t] (the buffers that a caller builds from [size_t] offsets). *)
Definition size_t_offset (buffer : V1_0.SharedBuffer) : Prop :=
  0 <= V1_0.offset buffer <= SIZE_MAX /\ 0 <= V1_0.size buffer.

(** The four values the code assigns to [mInitCheck]. *)
Definition mInitCheck_assigned (this : CryptoHalHidl) : Prop :=
  mInitCheck this = NO_INIT \/ mInitCheck this = OK
  \/ mInitCheck this = ERROR_UNSUPPORTED \/ mInitCheck this = DEAD_OBJECT.

(** The spec's table of local to wire modes. *)
Definition mode_table (mode : CryptoPlugin.Mode) (hMode : V1_0.Mode) : Prop :=
  match mode with
  | CryptoPlugin.kMode_Unencrypted => hMode = V1_0.UNENCRYPTED
  | CryptoPlugin.kMode_AES_CTR => hMode = V1_0.AES_CTR
  | CryptoPlugin.kMode_AES_WV => hMode = V1_0.AES_CBC_CTS
  | CryptoPlugin.kMode_AES_CBC => hMode = V1_0.AES_CBC
  | CryptoPlugin.kMode_unlisted => False
  end.

(** The wire subsamples of a [decrypt] call copy the local ones: same
    length, and the same two counts at every index. *)
Definition subSamples_copied (subSamples : list CryptoPlugin.SubSample)
    (hSubSamples : list V1_0.SubSample) : Prop :=
  length hSubSamples = length subSamples
  /\ forall index sample,
       subSamples !! index = Some sample ->
       exists hSample,
         hSubSamples !! index = Some hSample
         /\ V1_0.numBytesOfClearData hSample
            = CryptoPlugin.mNumBytesOfClearData sample
         /\ V1_0.numBytesOfEncryptedData hSample
            = CryptoPlugin.mNumBytesOfEncryptedData sample.

(** The remote's reply as the spec reads it: a failed transaction, or
    whether the status is OK, its translation, the byte count and the
    detail string. *)
Definition reply_summary_1_2 (reply : Return (Status_V1_2 * Z * string))
  : Return (bool * Z * Z * string) :=
  match reply with
  | Return_isOk (status, hBytesWritten, hDetailedError) =>
      Return_isOk
        (bool_decide (status = Status_V1_2_OK), toStatusT_1_2 status,
         hBytesWritten, hDetailedError)
  | Return_failed => Return_failed
  end.

Definition reply_summary (reply : Return (Status * Z * string))
  : Return (bool * Z * Z * string) :=
  match reply with
  | Return_isOk (status, hBytesWritten, hDetailedError) =>
      Return_isOk
        (bool_decide (status = Status_OK), toStatusT status, hBytesWritten,
         hDetailedError)
  | Return_failed => Return_failed
  end.

(** The byte count of a reply is a [uint32_t]. *)
Definition bytesWritten_is_uint32 {S : Type} (reply : Return (S * Z * string))
  : Prop :=
  match reply with
  | Return_isOk (_, hBytesWritten, _) => is_unsigned 32 hBytesWritten
  | Return_failed => True
  end.

(** What the spec lets [decrypt] return for a reply read that way:
    DEAD_OBJECT for a failed transaction; the byte count, and the detail
    string behind a non-null [errorDetailMsg], for status OK; the
    translation of any other status. *)
Definition reply_result (reply : Return (bool * Z * Z * string))
    (errorDetailMsg : option string) : Z * option string :=
  match reply with
  | Return_failed => (DEAD_OBJECT, errorDetailMsg)
  | Return_isOk (true, _, hBytesWritten, hDetailedError) =>
      (hBytesWritten,
       match errorDetailMsg with
       | Some _ => Some hDetailedError
       | None => None
       end)
  | Return_isOk (false, translated, _, _) => (translated, errorDetailMsg)
  end.

(** *** Predicates of the proofs *)

(** A [decrypt] call passes the gate and the validation. *)
Definition decrypt_validated (this : CryptoHalHidl)
    (mode : CryptoPlugin.Mode) (hSource : V1_0.SharedBuffer)
    (hDestination : V1_0.DestinationBuffer) : Prop :=
  mInitCheck this = OK
  /\ mode <> CryptoPlugin.kMode_unlisted
  /\ (V1_0.type hDestination = V1_0.NATIVE_HANDLE
      \/ (V1_0.type hDestination = V1_0.SHARED_MEMORY
          /\ checkSharedBuffer this (V1_0.nonsecureMemory hDestination)
             = OK))
  /\ checkSharedBuffer this hSource = OK.

(** The arguments [decrypt] sends for its parameters: the translated mode,
    pattern and subsamples, the key and vector arrays, and the source,
    offset and destination as they came; the destination is flagged secure
    when its type is NATIVE_HANDLE. *)
Definition wire_arguments (keyId iv : option bytes)
    (mode : CryptoPlugin.Mode) (pattern : CryptoPlugin.Pattern)
    (hSource : V1_0.SharedBuffer) (offset : Z)
    (subSamples : list CryptoPlugin.SubSample)
    (hDestination : V1_0.DestinationBuffer) (args : DecryptArgs) : Prop :=
  mode_table mode (arg_mode args)
  /\ V1_0.encryptBlocks (arg_pattern args)
     = CryptoPlugin.mEncryptBlocks pattern
  /\ V1_0.skipBlocks (arg_pattern args) = CryptoPlugin.mSkipBlocks pattern
  /\ subSamples_copied subSamples (arg_subSamples args)
  /\ arg_keyId args = toHidlArray16 keyId
  /\ arg_iv args = toHidlArray16 iv
  /\ arg_source args = hSource
  /\ arg_offset args = offset
  /\ arg_destination args = hDestination
  /\ arg_secure args
     = match V1_0.type hDestination with
       | V1_0.NATIVE_HANDLE => true
       | _ => false
       end.

(** The number of sequence numbers handed out so far: the counter, or 2^31
    once the counter has wrapped. *)
Definition issued (this : CryptoHalHidl) : Z :=
  if mHeapSeqNum this <? 0 then 2 ^ 31 else mHeapSeqNum this.

(** The counter is an [int32_t], and every registered key is a sequence
    number already handed out. *)
Definition heap_numbering (this : CryptoHalHidl) : Prop :=
  is_int32 (mHeapSeqNum this)
  /\ forall key, is_Some (mHeapSizes this !! key) -> 0 <= key < issued this.

(** An object in the NO_INIT state holds no plugin. *)
Definition unbound_before_init (this : CryptoHalHidl) : Prop :=
  mInitCheck this = NO_INIT -> mPlugin this = None.

(** *** Further predicates *)

(** Every registered heap size is a value of [size_t]. *)
Definition heap_sizes_typed (this : CryptoHalHidl) : Prop :=
  forall key heapSize,
    mHeapSizes this !! key = Some heapSize -> 0 <= heapSize <= SIZE_MAX.

(** When a plugin is bound, [mPluginV1_2] is what [castFrom] gave for it. *)
Definition v1_2_of_bound (this : CryptoHalHidl) : Prop :=
  forall plugin,
    mPlugin this = Some plugin ->
    mPluginV1_2 this = ICryptoPlugin_castFrom_V1_2 plugin.

(** An object in the NO_INIT state holds no 1.2 plugin either. *)
Definition unbound_v1_2_before_init (this : CryptoHalHidl) : Prop :=
  mInitCheck this = NO_INIT -> mPluginV1_2 this = None.

(** The plugin that [makeCryptoPlugin] returns for a factory: the one of
    the reply when the transaction succeeded with status OK. *)
Definition created_plugin (factory : ICryptoFactory) (uuid data : bytes)
  : option ICryptoPlugin :=
  match ICryptoFactory_createPlugin factory uuid data with
  | Return_isOk (status, hPlugin) =>
      if decide (status = Status_OK) then hPlugin else None
  | Return_failed => None
  end.

(** The factories that report support for a scheme, in [mFactories]
    order. *)
Definition supporting_factories (uuid : bytes)
    (factories : list ICryptoFactory) : list ICryptoFactory :=
  List.filter
    (fun factory => ICryptoFactory_isCryptoSchemeSupported factory uuid)
    factories.

Definition is_createPlugin_call (call : RemoteCall) : bool :=
  match call with
  | Call_Factory_createPlugin _ _ _ => true
  | _ => false
  end.

(** The calls that change the heap bookkeeping, and those that change the
    lifecycle state and the plugin pointers. *)
Definition changes_heaps (op : Op) : bool :=
  match op with
  | Op_setHeapBase _ | Op_clearHeapBase _ => true
  | _ => false
  end.

Definition changes_plugin (op : Op) : bool :=
  match op with
  | Op_createPlugin _ _ | Op_destroyPlugin => true
  | _ => false
  end.

(** The calls that reach the HAL only through the plugin pointers, each
    testing [isOk] on what it gets back.  [isCryptoSchemeSupported] and
    [createPlugin] read a [Return<bool>] untested, and [getLogMessages] is
    code of DrmUtils. *)
Definition through_plugin (op : Op) : bool :=
  match op with
  | Op_isCryptoSchemeSupported _ | Op_createPlugin _ _
  | Op_getLogMessages _ => false
  | _ => true
  end.

(** A factory instance that the service manager lists and [getService]
    resolves. *)
Definition resolved_factory (services : HalServices)
    (factory : ICryptoFactory) : Prop :=
  defaultServiceManager1_2 services = true
  /\ ((exists instances instance,
         listManifestByInterface_V1_0 services = Return_isOk instances
         /\ instance ∈ instances
         /\ V1_0_getService services instance = Some factory)
      \/ (exists instances instance,
            listManifestByInterface_V1_1 services = Return_isOk instances
            /\ instance ∈ instances
            /\ V1_1_getService services instance = Some factory)).

(** The state of an object constructed without factories. *)
Definition without_factories (this : CryptoHalHidl) : Prop :=
  mFactories this = []
  /\ mInitCheck this = ERROR_UNSUPPORTED
  /\ mPlugin this = None
  /\ mHeapSizes this = ∅.

(** *** Integer conversions *)

Lemma wrap_unsigned_small bits x :
  0 <= x < 2 ^ bits -> wrap_unsigned bits x = x.
Proof. intros Hx. unfold wrap_unsigned. apply Z.mod_small. exact Hx. Qed.

Lemma wrap_signed_small bits x :
  0 < bits -> - 2 ^ (bits - 1) <= x < 2 ^ (bits - 1) ->
  wrap_signed bits x = x.
Proof.
  intros Hbits Hx. unfold wrap_signed.
  replace (2 ^ bits) with (2 * 2 ^ (bits - 1)).
  - rewrite Z.mod_small; lia.
  - rewrite <- Z.pow_succ_r by lia. f_equal. lia.
Qed.

Lemma wrap_signed_32_range x : is_int32 (wrap_signed 32 x).
Proof.
  unfold is_int32, wrap_signed, INT32_MIN, INT32_MAX.
  pose proof (Z.mod_pos_bound (x + 2 ^ (32 - 1)) (2 ^ 32) ltac:(lia)).
  change (2 ^ (32 - 1)) with 2147483648 in *.
  change (2 ^ 32) with 4294967296 in *.
  change (2 ^ 31) with 2147483648. lia.
Qed.

(** The successor of a non-negative [int32_t]: the next integer, or
    [INT32_MIN] at the top of the range. *)
Lemma wrap_signed_32_succ n :
  0 <= n <= INT32_MAX ->
  wrap_signed 32 (n + 1) = (if n =? INT32_MAX then INT32_MIN else n + 1).
Proof.
  unfold INT32_MAX, INT32_MIN. intros Hn.
  change (2 ^ 31) with 2147483648 in *.
  destruct (Z.eqb_spec n (2147483648 - 1)) as [-> | Hne].
  - reflexivity.
  - apply wrap_signed_small; [lia |].
    change (2 ^ (32 - 1)) with 2147483648. lia.
Qed.

Lemma pow2_le_mono a b : 0 <= a <= b -> 2 ^ a <= 2 ^ b.
Proof. intros H. apply Z.pow_le_mono_r; lia. Qed.

(** *** Effects of the methods on the object *)

(** The loop of [createPlugin] returns; it leaves the factories and the
    heap bookkeeping alone, sets [mInitCheck] to nothing but DEAD_OBJECT,
    asks a factory for a plugin only after the factory reported support,
    and does nothing when no factory reports support. *)
Lemma createPlugin_from_effect factories : forall index this uuid data,
  exists this' calls,
    createPlugin_from index factories this uuid data = Returns this' calls
    /\ mFactories this' = mFactories this
    /\ mHeapSizes this' = mHeapSizes this
    /\ mHeapSeqNum this' = mHeapSeqNum this
    /\ (mInitCheck this' = mInitCheck this
        \/ mInitCheck this' = DEAD_OBJECT)
    /\ (forall i u d,
          In (Call_Factory_createPlugin i u d) calls ->
          u = uuid
          /\ exists factory,
               factories !! (i - index)%nat = Some factory
               /\ (index <= i)%nat
               /\ ICryptoFactory_isCryptoSchemeSupported factory uuid = true)
    /\ (Forall (fun factory =>
                  ICryptoFactory_isCryptoSchemeSupported factory uuid = false)
               factories ->
        this' = this).
Proof.
  induction factories as [| factory rest IH]; intros index this uuid data.
  - exists this, []. simpl. split_and!; tauto.
  - simpl. unfold makeCryptoPlugin, toHidlVec. exec_unfold.
    destruct (ICryptoFactory_isCryptoSchemeSupported factory uuid)
      eqn:Hsupported.
    + assert (Hhere : forall i u d,
                 Call_Factory_createPlugin index uuid data
                 = Call_Factory_createPlugin i u d ->
                 u = uuid
                 /\ exists factory0,
                      (factory :: rest) !! (i - index)%nat = Some factory0
                      /\ (index <= i)%nat
                      /\ ICryptoFactory_isCryptoSchemeSupported factory0 uuid
                         = true).
      { intros i u d [= <- <- <-]. split; [done |].
        exists factory. rewrite Nat.sub_diag. by split_and!. }
      assert (Hlater : forall calls,
                 (forall i u d,
                    In (Call_Factory_createPlugin i u d) calls ->
                    u = uuid
                    /\ exists factory0,
                         rest !! (i - S index)%nat = Some factory0
                         /\ (S index <= i)%nat
                         /\ ICryptoFactory_isCryptoSchemeSupported factory0
                              uuid = true) ->
                 forall i u d,
                   In (Call_Factory_createPlugin i u d) calls ->
                   u = uuid
                   /\ exists factory0,
                        (factory :: rest) !! (i - index)%nat = Some factory0
                        /\ (index <= i)%nat
                        /\ ICryptoFactory_isCryptoSchemeSupported factory0
                             uuid = true).
      { intros calls Hcalls i u d Hin.
        destruct (Hcalls i u d Hin) as (-> & factory0 & Hl & Hle & Hs).
        split; [done |]. exists factory0.
        replace (i - index)%nat with (S (i - S index)) by lia.
        split_and!; [done | lia | done]. }
      destruct (ICryptoFactory_createPlugin factory uuid data)
        as [[status hPlugin] |] eqn:Hcreate; simpl.
      * destruct (decide (status = Status_OK)) as [Hok | Hok];
          [destruct hPlugin as [created |] |]; simpl;
          match goal with
          | |- context [createPlugin_from _ _ ?t _ _] =>
              destruct (IH (S index) t uuid data)
                as (this' & calls & -> & Hf & Hs & Hn & Hi & Hc & _)
          end;
          (eexists; eexists; split; [reflexivity |]);
          simpl in *; split_and!; try done;
          try (intros Hnone; apply Forall_cons in Hnone as [Hnone _];
               congruence);
          intros i u d Hin;
          repeat (destruct Hin as [Heq | Hin];
                  [first [discriminate | exact (Hhere i u d Heq)] |]);
          exact (Hlater _ Hc i u d Hin).
      * match goal with
        | |- context [createPlugin_from _ _ ?t _ _] =>
            destruct (IH (S index) t uuid data)
              as (this' & calls & -> & Hf & Hs & Hn & Hi & Hc & _)
        end.
        eexists; eexists; split; [reflexivity |].
        simpl in *; split_and!; try done.
        -- destruct Hi as [-> | ->]; by right.
        -- intros i u d [Heq | [Heq | Hin]];
             [discriminate | exact (Hhere i u d Heq) | exact (Hlater _ Hc i u d Hin)].
        -- intros Hnone. apply Forall_cons in Hnone as [Hnone _].
           congruence.
    + destruct (IH (S index) this uuid data)
        as (this' & calls & -> & Hf & Hs & Hn & Hi & Hc & Hnone).
      eexists; eexists; split; [reflexivity |].
      split_and!; try done.
      * intros i u d [Heq | Hin]; [discriminate |].
        destruct (Hc i u d Hin) as (-> & factory0 & Hl & Hle & Hs0).
        split; [done |]. exists factory0.
        replace (i - index)%nat with (S (i - S index)) by lia.
        split_and!; [done | lia | done].
      * intros Hall. apply Forall_cons in Hall as [_ Hall]. by apply Hnone.
Qed.

(** [createPlugin] returns: the loop, then the update of [mInitCheck]. *)
Lemma createPlugin_effect this uuid data :
  exists looped calls,
    createPlugin_from 0 (mFactories this) this uuid data
    = Returns looped calls
    /\ createPlugin this uuid data
       = Returns
           (mInitCheck
              (if mInitCheck looped =? NO_INIT then
                 set_mInitCheck
                   (match mPlugin looped with
                    | None => ERROR_UNSUPPORTED
                    | Some _ => OK
                    end) looped
               else looped),
            if mInitCheck looped =? NO_INIT then
              set_mInitCheck
                (match mPlugin looped with
                 | None => ERROR_UNSUPPORTED
                 | Some _ => OK
                 end) looped
            else looped)
           calls.
Proof.
  destruct (createPlugin_from_effect (mFactories this) 0%nat this uuid data)
    as (looped & calls & Hloop & _).
  exists looped, calls. split; [done |].
  unfold createPlugin. rewrite Hloop. exec_unfold.
  by rewrite app_nil_r.
Qed.

(** [decrypt] leaves the object as it is. *)
Lemma decrypt_object this keyId iv mode pattern hSource offset subSamples
    hDestination errorDetailMsg result detail' this' calls :
  decrypt this keyId iv mode pattern hSource offset subSamples hDestination
    errorDetailMsg = Returns (result, detail', this') calls ->
  this' = this.
Proof.
  unfold decrypt, decrypt_remote, decrypt_return. exec_unfold.
  intros Hdecrypt.
  repeat case_match; simplify_eq; reflexivity.
Qed.

(** Which method a call runs, and that the methods other than
    [createPlugin], [destroyPlugin], [setHeapBase] and [clearHeapBase]
    leave the object as it is. *)
Lemma step_effect this op result this' calls :
  step this op = Returns (result, this') calls ->
  match op with
  | Op_createPlugin uuid data =>
      exists status,
        createPlugin this uuid data = Returns (status, this') calls
  | Op_destroyPlugin =>
      exists status, destroyPlugin this = Returns (status, this') calls
  | Op_setHeapBase heap =>
      exists seqNum,
        result = Result_seqNum seqNum
        /\ setHeapBase this heap = Returns (seqNum, this') calls
  | Op_clearHeapBase seqNum =>
      clearHeapBase this seqNum = Returns this' calls
  | _ => this' = this
  end.
Proof.
  intros Hstep. destruct op; simpl in Hstep.
  - exec_unfold. by simplify_eq.
  - exec_unfold. by repeat case_match; simplify_eq.
  - exec_unfold.
    destruct (createPlugin this uuid data) as [[status created] calls0 |];
      [| discriminate].
    simplify_eq. exists status. by rewrite app_nil_r.
  - exec_unfold.
    destruct (destroyPlugin this) as [[status destroyed] calls0 |];
      [| discriminate].
    simplify_eq. exists status. by rewrite app_nil_r.
  - exec_unfold. by repeat case_match; simplify_eq.
  - exec_unfold.
    destruct (setHeapBase this heap) as [[seqNum updated] calls0 |];
      [| discriminate].
    simplify_eq. exists seqNum. by rewrite app_nil_r.
  - exec_unfold.
    destruct (clearHeapBase this seqNum) as [cleared calls0 |];
      [| discriminate].
    simplify_eq. by rewrite app_nil_r.
  - exec_unfold.
    destruct (decrypt this keyId iv mode pattern hSource offset subSamples
                hDestination errorDetailMsg)
      as [[[status detail'] same] calls0 |] eqn:Hdecrypt; [| discriminate].
    simplify_eq. by eapply decrypt_object.
  - exec_unfold. unfold notifyResolution in Hstep. exec_unfold.
    by repeat case_match; simplify_eq.
  - exec_unfold. unfold setMediaDrmSession in Hstep. exec_unfold.
    by repeat case_match; simplify_eq.
  - exec_unfold. by repeat case_match; simplify_eq.
Qed.

(** A [setHeapBase] call that returns either fails, returning -1 and
    changing nothing, or hands out the counter's value. *)
Lemma setHeapBase_effect this heap seqNum this' calls :
  setHeapBase this heap = Returns (seqNum, this') calls ->
  (seqNum = -1 /\ this' = this /\ calls = [])
  \/ (exists memory plugin,
        heap = Some memory
        /\ mPlugin this = Some plugin
        /\ mInitCheck this = OK
        /\ 0 <= mHeapSeqNum this
        /\ seqNum = mHeapSeqNum this
        /\ this'
           = set_mHeapSizes
               (<[seqNum := wrap_unsigned size_bits (HidlMemory.size memory)]>
                  (mHeapSizes this))
               (set_mHeapSeqNum (wrap_signed 32 (seqNum + 1)) this)
        /\ calls
           = [Call_setSharedBufferBase (Some memory)
                (wrap_unsigned 32 seqNum)]).
Proof.
  unfold setHeapBase. exec_unfold. intros Hset.
  destruct heap as [memory |]; [| left; by simplify_eq].
  destruct (mHeapSeqNum this <? 0) eqn:Hcounter; [left; by simplify_eq |].
  destruct (mInitCheck this =? OK) eqn:Hinit; simpl in Hset;
    [| left; by simplify_eq].
  destruct (mPlugin this) as [plugin |] eqn:Hplugin; [| discriminate].
  simplify_eq. right. exists memory, plugin.
  apply Z.ltb_ge in Hcounter. apply Z.eqb_eq in Hinit.
  by split_and!.
Qed.

Lemma clearHeapBase_effect this seqNum :
  exists calls,
    clearHeapBase this seqNum
    = Returns
        (match mHeapSizes this !! seqNum with
         | Some _ => set_mHeapSizes (delete seqNum (mHeapSizes this)) this
         | None => this
         end) calls
    /\ (mHeapSizes this !! seqNum = None -> calls = []).
Proof.
  unfold clearHeapBase. exec_unfold.
  destruct (mHeapSizes this !! seqNum) as [heapSize |];
    [| by exists []].
  destruct (mPlugin this) as [plugin |]; eexists; split;
    try reflexivity; discriminate.
Qed.

(** *** Invariants of the object *)

Lemma createPlugin_mInitCheck_assigned this uuid data status this' calls :
  mInitCheck_assigned this ->
  createPlugin this uuid data = Returns (status, this') calls ->
  mInitCheck_assigned this'.
Proof.
  intros Hassigned Hcreate.
  destruct (createPlugin_effect this uuid data)
    as (looped & calls' & Hloop & Hresult).
  destruct (createPlugin_from_effect (mFactories this) 0%nat this uuid data)
    as (looped' & calls'' & Hloop' & _ & _ & _ & Hinit & _).
  rewrite Hloop in Hloop'. rewrite Hresult in Hcreate. simplify_eq.
  unfold mInitCheck_assigned in *.
  destruct (mInitCheck looped' =? NO_INIT); simpl.
  - destruct (mPlugin looped'); tauto.
  - destruct Hinit as [-> | ->]; tauto.
Qed.

Lemma step_mInitCheck_assigned this op result this' calls :
  mInitCheck_assigned this ->
  step this op = Returns (result, this') calls ->
  mInitCheck_assigned this'.
Proof.
  intros Hassigned Hstep. apply step_effect in Hstep.
  destruct op; try (by subst).
  - destruct Hstep as [status Hcreate].
    by eapply createPlugin_mInitCheck_assigned.
  - destruct Hstep as [status Hdestroy].
    unfold destroyPlugin in Hdestroy. exec_unfold.
    destruct (mInitCheck this =? OK); simpl in Hdestroy; simplify_eq;
      [| done].
    by left.
  - destruct Hstep as (seqNum & _ & Hset).
    apply setHeapBase_effect in Hset
      as [(_ & -> & _) | (memory & plugin & _ & _ & _ & _ & _ & -> & _)];
      done.
  - destruct (clearHeapBase_effect this seqNum) as (calls' & Hclear & _).
    rewrite Hclear in Hstep. simplify_eq.
    by destruct (mHeapSizes this !! seqNum).
Qed.

Lemma execution_invariant (P : CryptoHalHidl -> Prop) :
  (forall this op result this' calls,
     P this -> step this op = Returns (result, this') calls -> P this') ->
  forall this history this',
    execution this history this' -> P this -> P this'.
Proof.
  intros Hstep this history this' Hexecution.
  induction Hexecution as [| this op result calls this' history this'' H _ IH];
    [done |].
  intros HP. apply IH. by eapply Hstep.
Qed.

Lemma run_execution ops : forall this history this',
  run this ops = Some (history, this') -> execution this history this'.
Proof.
  induction ops as [| op rest IH]; intros this history this' Hrun;
    simpl in Hrun.
  - simplify_eq. constructor.
  - destruct (step this op) as [[result next] calls |] eqn:Hstep;
      [| discriminate].
    destruct (run next rest) as [[history' final] |] eqn:Hrest;
      [| discriminate].
    simplify_eq. econstructor; [exact Hstep |]. by apply IH.
Qed.

Lemma CryptoHalHidl_new_mInitCheck_assigned services :
  mInitCheck_assigned (CryptoHalHidl_new services).
Proof.
  unfold mInitCheck_assigned, CryptoHalHidl_new. simpl.
  destruct (_ =? _)%nat; tauto.
Qed.

(** *** Scheme support and plugin creation *)

Lemma isCryptoSchemeSupported_from_returns uuid factories : forall index,
  exists calls,
    isCryptoSchemeSupported_from index factories uuid
    = Returns
        (existsb
           (fun factory =>
              ICryptoFactory_isCryptoSchemeSupported factory uuid)
           factories)
        calls.
Proof.
  induction factories as [| factory rest IH]; intros index; simpl.
  - by exists [].
  - exec_unfold.
    destruct (ICryptoFactory_isCryptoSchemeSupported factory uuid); simpl.
    + by eexists.
    + destruct (IH (S index)) as [calls ->]. by eexists.
Qed.

(** *** The lifecycle state *)

(** C4, as amended.  In every reachable state of the object, [mInitCheck]
    is one of NO_INIT, OK, ERROR_UNSUPPORTED and DEAD_OBJECT. *)
Theorem reachable_mInitCheck_assigned this :
  reachable this -> mInitCheck_assigned this.
Proof.
  intros (services & history & Hexecution).
  eapply (execution_invariant mInitCheck_assigned); [| done |].
  - intros; by eapply step_mInitCheck_assigned.
  - apply CryptoHalHidl_new_mInitCheck_assigned.
Qed.

(** *** Heap registrations *)

(** C8.  [clearHeapBase] returns; afterwards [seqNum] has no entry in the
    heap-size map, every other key has the entry it had, and the other
    fields of the object are unchanged; when [seqNum] had no entry the
    object is unchanged and no remote call is issued. *)
Theorem clearHeapBase_removes_only_seqNum this seqNum :
  exists this' calls,
    clearHeapBase this seqNum = Returns this' calls
    /\ mHeapSizes this' !! seqNum = None
    /\ (forall other,
          other <> seqNum ->
          mHeapSizes this' !! other = mHeapSizes this !! other)
    /\ mFactories this' = mFactories this
    /\ mPlugin this' = mPlugin this
    /\ mPluginV1_2 this' = mPluginV1_2 this
    /\ mInitCheck this' = mInitCheck this
    /\ mHeapSeqNum this' = mHeapSeqNum this
    /\ (mHeapSizes this !! seqNum = None -> this' = this /\ calls = []).
Proof.
  destruct (clearHeapBase_effect this seqNum) as (calls & Hclear & Hnone).
  eexists; exists calls. split; [exact Hclear |].
  destruct (mHeapSizes this !! seqNum) as [heapSize |] eqn:Hlookup; simpl.
  - split_and!; try done.
    + apply lookup_delete_eq.
    + intros other Hother. by apply lookup_delete_ne.
  - split_and!; try done. intros _. split; [done | by apply Hnone].
Qed.

Lemma issued_nonneg this : 0 <= issued this.
Proof. unfold issued. destruct (Z.ltb_spec (mHeapSeqNum this) 0); lia. Qed.

(** A successful [setHeapBase] returns the number of sequence numbers
    handed out so far, and hands out one more. *)
Lemma setHeapBase_issues this memory seqNum :
  is_int32 (mHeapSeqNum this) ->
  0 <= mHeapSeqNum this ->
  seqNum = mHeapSeqNum this ->
  seqNum = issued this
  /\ is_int32 (wrap_signed 32 (seqNum + 1))
  /\ issued
       (set_mHeapSizes
          (<[seqNum := wrap_unsigned size_bits (HidlMemory.size memory)]>
             (mHeapSizes this))
          (set_mHeapSeqNum (wrap_signed 32 (seqNum + 1)) this))
     = seqNum + 1.
Proof.
  intros [Hmin Hmax] Hnonneg ->. unfold issued. simpl.
  destruct (Z.ltb_spec (mHeapSeqNum this) 0) as [| _]; [lia |].
  split; [done |]. split; [apply wrap_signed_32_range |].
  rewrite wrap_signed_32_succ by lia.
  unfold INT32_MAX, INT32_MIN in *.
  change (2 ^ 31) with 2147483648 in *.
  destruct (Z.eqb_spec (mHeapSeqNum this) (2147483648 - 1)) as [-> | Hne].
  - reflexivity.
  - destruct (Z.ltb_spec (mHeapSeqNum this + 1) 0); lia.
Qed.

Lemma step_heap_numbering this op result this' calls :
  heap_numbering this ->
  step this op = Returns (result, this') calls ->
  heap_numbering this'
  /\ issued this <= issued this'
  /\ match heap_seqNums [(op, result)] with
     | seqNum :: _ => seqNum = issued this /\ issued this' = seqNum + 1
     | [] => True
     end.
Proof.
  intros [Hint Hkeys] Hstep. apply step_effect in Hstep.
  destruct op; simpl;
    try (subst this'; by split_and!; [split | lia | by destruct result]).
  - destruct Hstep as [status Hcreate].
    destruct (createPlugin_effect this uuid data)
      as (looped & calls' & Hloop & Hresult).
    destruct (createPlugin_from_effect (mFactories this) 0%nat this uuid
                data)
      as (looped' & calls'' & Hloop' & _ & Hsizes & Hnum & _).
    rewrite Hloop in Hloop'. rewrite Hresult in Hcreate. simplify_eq.
    assert (Hsame : forall updated,
               mHeapSizes updated = mHeapSizes this ->
               mHeapSeqNum updated = mHeapSeqNum this ->
               heap_numbering updated /\ issued this <= issued updated).
    { intros updated Hs Hn. unfold heap_numbering, issued.
      rewrite Hs, Hn. split; [by split | lia]. }
    destruct (mInitCheck looped' =? NO_INIT);
      (split_and!; [by apply Hsame | by apply Hsame | by destruct result]).
  - destruct Hstep as [status Hdestroy].
    unfold destroyPlugin in Hdestroy. exec_unfold.
    destruct (mInitCheck this =? OK); simpl in Hdestroy; simplify_eq;
      (split_and!; [by split | unfold issued; simpl; lia
                   | by destruct result]).
  - destruct Hstep as (seqNum & -> & Hset).
    apply setHeapBase_effect in Hset
      as [(-> & -> & _)
         | (memory & plugin & _ & _ & _ & Hnonneg & Hseq & -> & _)].
    + simpl. split_and!; [by split | lia | done].
    + destruct (setHeapBase_issues this memory seqNum Hint Hnonneg Hseq)
        as (Hissued & Hint' & Hnext).
      destruct (Z.eqb_spec seqNum (-1)) as [| _]; [lia |].
      split_and!; [| lia | done | done].
      split; [done |]. intros key Hkey. rewrite Hnext. simpl in Hkey.
      destruct (decide (key = seqNum)) as [-> | Hne]; [lia |].
      rewrite lookup_insert_ne in Hkey by done.
      specialize (Hkeys key Hkey). lia.
  - destruct (clearHeapBase_effect this seqNum) as (calls' & Hclear & _).
    rewrite Hclear in Hstep. simplify_eq.
    destruct (mHeapSizes this !! seqNum) as [heapSize |] eqn:Hlookup;
      (split_and!; [| unfold issued; simpl; lia | done]);
      [| by split].
    split; [done |]. intros key Hkey. simpl in Hkey.
    destruct (decide (key = seqNum)) as [-> | Hne].
    + rewrite lookup_delete_eq in Hkey. by destruct Hkey.
    + rewrite lookup_delete_ne in Hkey by done. by apply Hkeys.
Qed.

(** Along an execution the sequence numbers returned lie between the
    numbers handed out before and after, and increase strictly. *)
Lemma execution_heap_seqNums this history this' :
  execution this history this' ->
  heap_numbering this ->
  heap_numbering this'
  /\ issued this <= issued this'
  /\ Forall (fun seqNum => issued this <= seqNum < issued this')
       (heap_seqNums history)
  /\ StronglySorted Z.lt (heap_seqNums history).
Proof.
  intros Hexecution.
  induction Hexecution
    as [this | this op result calls this' history this'' Hstep _ IH];
    intros Hnumbering.
  - split_and!; [done | lia | constructor | constructor].
  - destruct (step_heap_numbering _ _ _ _ _ Hnumbering Hstep)
      as (Hnumbering' & Hle & Hhead).
    destruct (IH Hnumbering') as (Hnumbering'' & Hle' & Hrange & Hsorted).
    split; [done |]. split; [lia |].
    assert (Hwiden : Forall
                       (fun seqNum => issued this <= seqNum < issued this'')
                       (heap_seqNums history)).
    { eapply Forall_impl; [exact Hrange |]. simpl. intros; lia. }
    change ((op, result) :: history) with ([(op, result)] ++ history).
    assert (Happ : heap_seqNums ([(op, result)] ++ history)
                   = heap_seqNums [(op, result)] ++ heap_seqNums history).
    { simpl. destruct op; try done. destruct result; try done.
      by destruct (seqNum =? -1). }
    rewrite Happ.
    destruct (heap_seqNums [(op, result)]) as [| seqNum [| ? ?]] eqn:Hone;
      simpl.
    + done.
    + destruct Hhead as [-> Hnext]. split.
      * constructor; [lia | done].
      * constructor; [done |].
        eapply Forall_impl; [exact Hrange |]. simpl. intros; lia.
    + exfalso. simpl in Hone. destruct op; try done.
      destruct result; try done. by destruct (seqNum0 =? -1).
Qed.

Lemma CryptoHalHidl_new_heap_numbering services :
  heap_numbering (CryptoHalHidl_new services).
Proof.
  split; simpl.
  - unfold is_int32, INT32_MIN, INT32_MAX. lia.
  - intros key [heapSize Hlookup]. by rewrite lookup_empty in Hlookup.
Qed.

(** C5.  After any sequence of calls on a constructed object: the sequence
    numbers that [setHeapBase] returned so far are non-negative and
    strictly increasing; a further [setHeapBase] that returns a number
    other than -1 returns a non-negative number greater than all of them
    that had no entry in the heap-size map, and enters the heap's size (as a
    [size_t]) under that number; and with a non-null heap, a non-negative
    counter, the OK state and a bound plugin the call does return the
    counter's value. *)
Theorem setHeapBase_sequence_numbers services history this :
  execution (CryptoHalHidl_new services) history this ->
  StronglySorted Z.lt (heap_seqNums history)
  /\ Forall (fun seqNum => 0 <= seqNum) (heap_seqNums history)
  /\ (forall heap seqNum this' calls,
        setHeapBase this heap = Returns (seqNum, this') calls ->
        seqNum <> -1 ->
        0 <= seqNum
        /\ Forall (fun earlier => earlier < seqNum) (heap_seqNums history)
        /\ mHeapSizes this !! seqNum = None
        /\ exists memory,
             heap = Some memory
             /\ mHeapSizes this' !! seqNum
                = Some (wrap_unsigned size_bits (HidlMemory.size memory))
             /\ (is_unsigned size_bits (HidlMemory.size memory) ->
                 mHeapSizes this' !! seqNum
                 = Some (HidlMemory.size memory)))
  /\ (forall memory plugin,
        mPlugin this = Some plugin ->
        mInitCheck this = OK ->
        0 <= mHeapSeqNum this ->
        exists this' calls,
          setHeapBase this (Some memory)
          = Returns (mHeapSeqNum this, this') calls).
Proof.
  intros Hexecution.
  destruct (execution_heap_seqNums _ _ _ Hexecution
              (CryptoHalHidl_new_heap_numbering services))
    as ([Hint Hkeys] & _ & Hrange & Hsorted).
  pose proof (issued_nonneg (CryptoHalHidl_new services)) as Hstart.
  split_and!.
  - exact Hsorted.
  - eapply Forall_impl; [exact Hrange |]. simpl. intros; lia.
  - intros heap seqNum this' calls Hset Hsuccess.
    apply setHeapBase_effect in Hset
      as [(-> & _) | (memory & plugin & -> & _ & _ & Hnonneg & Hseq & -> & _)];
      [done |].
    destruct (setHeapBase_issues this memory seqNum Hint Hnonneg Hseq)
      as (Hissued & _ & _).
    split_and!.
    + lia.
    + eapply Forall_impl; [exact Hrange |]. simpl. intros; lia.
    + destruct (mHeapSizes this !! seqNum) as [heapSize |] eqn:Hlookup;
        [| done].
      assert (is_Some (mHeapSizes this !! seqNum)) as Hsome by by eexists.
      specialize (Hkeys seqNum Hsome). lia.
    + exists memory. simpl. rewrite lookup_insert_eq.
      split_and!; [done | done |].
      intros Hfits. by rewrite wrap_unsigned_small.
  - intros memory plugin Hplugin Hinit Hnonneg.
    unfold setHeapBase. exec_unfold.
    apply Z.ltb_ge in Hnonneg. rewrite Hnonneg.
    apply Z.eqb_eq in Hinit. rewrite Hinit. simpl.
    rewrite Hplugin. by eexists; eexists.
Qed.

(** *** The gate on the lifecycle state *)

(** C9.  When [mInitCheck] is not OK, [decrypt] and [setMediaDrmSession]
    return [mInitCheck], [setHeapBase] returns -1,
    [requiresSecureDecoderComponent] returns false and [notifyResolution]
    returns; each leaves the object (and the string behind
    [errorDetailMsg]) unchanged and issues no remote call.  So does
    [destroyPlugin], the remaining method behind the gate. *)
Theorem not_OK_fails_fast
    this keyId iv mode pattern hSource offset subSamples hDestination
    errorDetailMsg sessionId heap mime width height :
  mInitCheck this <> OK ->
  decrypt this keyId iv mode pattern hSource offset subSamples hDestination
    errorDetailMsg
  = Returns (mInitCheck this, errorDetailMsg, this) []
  /\ setMediaDrmSession this sessionId = Returns (mInitCheck this, this) []
  /\ setHeapBase this heap = Returns (-1, this) []
  /\ requiresSecureDecoderComponent this mime = Returns false []
  /\ notifyResolution this width height = Returns this []
  /\ destroyPlugin this = Returns (mInitCheck this, this) [].
Proof.
  intros Hinit. apply Z.eqb_neq in Hinit.
  unfold decrypt, setMediaDrmSession, setHeapBase,
    requiresSecureDecoderComponent, notifyResolution, destroyPlugin.
  rewrite Hinit. simpl. split_and!; try reflexivity.
  destruct heap as [memory |]; [| reflexivity].
  by destruct (mHeapSeqNum this <? 0).
Qed.

(** *** The decrypt call on the wire *)

Lemma decrypt_subSamples_map subSamples : forall stdSubSamples,
  decrypt_subSamples subSamples stdSubSamples
  = stdSubSamples
    ++ map
         (fun sample =>
            {| V1_0.numBytesOfClearData :=
                 CryptoPlugin.mNumBytesOfClearData sample;
               V1_0.numBytesOfEncryptedData :=
                 CryptoPlugin.mNumBytesOfEncryptedData sample |})
         subSamples.
Proof.
  induction subSamples as [| sample rest IH]; intros stdSubSamples; simpl.
  - by rewrite app_nil_r.
  - rewrite IH. by rewrite <- app_assoc.
Qed.

Lemma decrypt_subSamples_copied subSamples :
  subSamples_copied subSamples (decrypt_subSamples subSamples []).
Proof.
  rewrite decrypt_subSamples_map. simpl. split.
  - apply length_map.
  - intros index sample Hlookup. eexists. split.
    + rewrite list_lookup_fmap, Hlookup. reflexivity.
    + by split.
Qed.

(** A [decrypt] call that passed the gate and the validation goes on to
    the remote call, with the arguments translated from its parameters. *)
Lemma decrypt_validated_outcome
    this keyId iv mode pattern hSource offset subSamples hDestination
    errorDetailMsg :
  mInitCheck this = OK ->
  mode <> CryptoPlugin.kMode_unlisted ->
  V1_0.type hDestination = V1_0.NATIVE_HANDLE
  \/ (V1_0.type hDestination = V1_0.SHARED_MEMORY
      /\ checkSharedBuffer this (V1_0.nonsecureMemory hDestination) = OK) ->
  checkSharedBuffer this hSource = OK ->
  exists args,
    wire_arguments keyId iv mode pattern hSource offset subSamples
      hDestination args
    /\ decrypt this keyId iv mode pattern hSource offset subSamples
         hDestination errorDetailMsg
       = ('(isOk, locals) ←
            decrypt_remote this args
              {| err := UNKNOWN_ERROR; bytesWritten := 0;
                 detail := errorDetailMsg |};
          mret (decrypt_return this isOk locals)).
Proof.
  intros Hinit Hmode Hdestination Hsource.
  unfold decrypt. apply Z.eqb_eq in Hinit. rewrite Hinit. simpl.
  pose proof (decrypt_subSamples_copied subSamples) as Hcopied.
  destruct mode; try done; simpl.
  all: destruct Hdestination as [Htype | [Htype Hcheck]]; rewrite Htype;
    rewrite ?Hcheck, ?Hsource, ?Z.eqb_refl; simpl;
    rewrite ?Hsource, ?Z.eqb_refl; simpl.
  all: eexists; split; [| reflexivity].
  all: unfold wire_arguments; simpl; rewrite ?Htype; by split_and!.
Qed.

(** The remote call itself: exactly one, on the 1.2 interface when
    [mPluginV1_2] is non-null and on the 1.0 interface when only [mPlugin]
    is; a null dereference when both are null. *)
Lemma decrypt_remote_calls this args locals :
  match mPluginV1_2 this, mPlugin this with
  | Some _, _ =>
      exists result,
        decrypt_remote this args locals
        = Returns result [Call_decrypt_1_2 args]
  | None, Some _ =>
      exists result,
        decrypt_remote this args locals = Returns result [Call_decrypt args]
  | None, None => decrypt_remote this args locals = Aborts []
  end.
Proof.
  unfold decrypt_remote. exec_unfold.
  destruct (mPluginV1_2 this) as [pluginV1_2 |];
    [| destruct (mPlugin this) as [plugin |]; [| reflexivity]].
  - destruct (ICryptoPlugin_decrypt_1_2 pluginV1_2 args)
      as [[[status hBytesWritten] hDetailedError] |]; by eexists.
  - destruct (ICryptoPlugin_decrypt plugin args)
      as [[[status hBytesWritten] hDetailedError] |]; by eexists.
Qed.

Lemma decrypt_validated_calls
    this keyId iv mode pattern hSource offset subSamples hDestination
    errorDetailMsg :
  mInitCheck this = OK ->
  mode <> CryptoPlugin.kMode_unlisted ->
  V1_0.type hDestination = V1_0.NATIVE_HANDLE
  \/ (V1_0.type hDestination = V1_0.SHARED_MEMORY
      /\ checkSharedBuffer this (V1_0.nonsecureMemory hDestination) = OK) ->
  checkSharedBuffer this hSource = OK ->
  match mPluginV1_2 this, mPlugin this with
  | Some _, _ =>
      exists args,
        calls_of
          (decrypt this keyId iv mode pattern hSource offset subSamples
             hDestination errorDetailMsg)
        = [Call_decrypt_1_2 args]
        /\ wire_arguments keyId iv mode pattern hSource offset subSamples
             hDestination args
  | None, Some _ =>
      exists args,
        calls_of
          (decrypt this keyId iv mode pattern hSource offset subSamples
             hDestination errorDetailMsg)
        = [Call_decrypt args]
        /\ wire_arguments keyId iv mode pattern hSource offset subSamples
             hDestination args
  | None, None =>
      decrypt this keyId iv mode pattern hSource offset subSamples
        hDestination errorDetailMsg
      = Aborts []
  end.
Proof.
  intros Hinit Hmode Hdestination Hsource.
  destruct (decrypt_validated_outcome this keyId iv mode pattern hSource
              offset subSamples hDestination errorDetailMsg Hinit Hmode
              Hdestination Hsource) as (args & Hargs & ->).
  pose proof (decrypt_remote_calls this args
                {| err := UNKNOWN_ERROR; bytesWritten := 0;
                   detail := errorDetailMsg |}) as Hremote.
  destruct (mPluginV1_2 this) as [pluginV1_2 |];
    [| destruct (mPlugin this) as [plugin |]].
  - destruct Hremote as [[isOk locals] ->]. exists args. by split.
  - destruct Hremote as [[isOk locals] ->]. exists args. by split.
  - by rewrite Hremote.
Qed.

(** A [decrypt] call that does not pass returns a status and issues no
    remote call. *)
Lemma decrypt_not_validated
    this keyId iv mode pattern hSource offset subSamples hDestination
    errorDetailMsg :
  ~ decrypt_validated this mode hSource hDestination ->
  exists status,
    decrypt this keyId iv mode pattern hSource offset subSamples hDestination
      errorDetailMsg
    = Returns (status, errorDetailMsg, this) [].
Proof.
  unfold decrypt_validated, decrypt. intros Hnot.
  destruct (Z.eqb_spec (mInitCheck this) OK) as [Hinit | Hinit]; simpl;
    [| by eexists].
  destruct (decide (mode = CryptoPlugin.kMode_unlisted)) as [-> | Hmode];
    [by eexists |].
  assert (Hrest :
            ~ ((V1_0.type hDestination = V1_0.NATIVE_HANDLE
                \/ (V1_0.type hDestination = V1_0.SHARED_MEMORY
                    /\ checkSharedBuffer this
                         (V1_0.nonsecureMemory hDestination) = OK))
               /\ checkSharedBuffer this hSource = OK)) by tauto.
  destruct mode; try done; simpl.
  all: destruct (V1_0.type hDestination) eqn:Htype; simpl;
    try (by eexists).
  all: try destruct (Z.eqb_spec
                       (checkSharedBuffer this
                          (V1_0.nonsecureMemory hDestination)) OK)
         as [Hdst | Hdst];
    simpl; try (by eexists).
  all: destruct (Z.eqb_spec (checkSharedBuffer this hSource) OK)
         as [Hsrc | Hsrc];
    simpl; try (by eexists).
  all: exfalso; apply Hrest; split; [| done]; auto.
Qed.

Lemma decrypt_validated_dec this mode hSource hDestination :
  decrypt_validated this mode hSource hDestination
  \/ ~ decrypt_validated this mode hSource hDestination.
Proof.
  unfold decrypt_validated.
  destruct (Z.eq_dec (mInitCheck this) OK); [| tauto].
  destruct (decide (mode = CryptoPlugin.kMode_unlisted)); [tauto |].
  destruct (Z.eq_dec (checkSharedBuffer this hSource) OK); [| tauto].
  destruct (V1_0.type hDestination); [| left; tauto | right].
  - destruct (Z.eq_dec
                (checkSharedBuffer this (V1_0.nonsecureMemory hDestination))
                OK); [left; tauto | right].
    intros (_ & _ & [? | [_ ?]] & _); done.
  - intros (_ & _ & [? | [? _]] & _); done.
Qed.

(** C6, as amended.  Every remote call that [decrypt] issues is a decrypt
    call whose arguments translate the local parameters: the mode by the
    table, the pattern's two block counts unchanged, the subsamples copied
    in order with equal length and equal counts; and in the OK state a mode
    outside the table makes [decrypt] return UNKNOWN_ERROR without a remote
    call. *)
Theorem decrypt_translates_parameters
    this keyId iv mode pattern hSource offset subSamples hDestination
    errorDetailMsg :
  (forall call,
     In call
       (calls_of
          (decrypt this keyId iv mode pattern hSource offset subSamples
             hDestination errorDetailMsg)) ->
     exists args,
       (call = Call_decrypt args \/ call = Call_decrypt_1_2 args)
       /\ mode_table mode (arg_mode args)
       /\ V1_0.encryptBlocks (arg_pattern args)
          = CryptoPlugin.mEncryptBlocks pattern
       /\ V1_0.skipBlocks (arg_pattern args)
          = CryptoPlugin.mSkipBlocks pattern
       /\ subSamples_copied subSamples (arg_subSamples args))
  /\ (mInitCheck this = OK ->
      mode = CryptoPlugin.kMode_unlisted ->
      decrypt this keyId iv mode pattern hSource offset subSamples
        hDestination errorDetailMsg
      = Returns (UNKNOWN_ERROR, errorDetailMsg, this) []).
Proof.
  split.
  - intros call Hin.
    destruct (decrypt_validated_dec this mode hSource hDestination)
      as [(Hinit & Hmode & Hdestination & Hsource) | Hnot].
    + pose proof (decrypt_validated_calls this keyId iv mode pattern hSource
                    offset subSamples hDestination errorDetailMsg Hinit
                    Hmode Hdestination Hsource) as Hcalls.
      destruct (mPluginV1_2 this) as [pluginV1_2 |];
        [| destruct (mPlugin this) as [plugin |]].
      * destruct Hcalls as (args & Hcalls & Hm & He & Hs & Hc & _).
        rewrite Hcalls in Hin. destruct Hin as [<- | []].
        exists args. by split_and!; [right | ..].
      * destruct Hcalls as (args & Hcalls & Hm & He & Hs & Hc & _).
        rewrite Hcalls in Hin. destruct Hin as [<- | []].
        exists args. by split_and!; [left | ..].
      * rewrite Hcalls in Hin. destruct Hin.
    + destruct (decrypt_not_validated this keyId iv mode pattern hSource
                  offset subSamples hDestination errorDetailMsg Hnot)
        as [status Hreturn].
      rewrite Hreturn in Hin. destruct Hin.
  - intros Hinit ->. unfold decrypt.
    apply Z.eqb_eq in Hinit. by rewrite Hinit.
Qed.

(** C10, as amended.  In the OK state: a destination whose type is neither
    SHARED_MEMORY nor NATIVE_HANDLE makes [decrypt] return UNKNOWN_ERROR
    without a remote call; for a destination of type NATIVE_HANDLE only
    the source buffer is checked: when [checkSharedBuffer] rejects the
    source, [decrypt] returns its status without a remote call, and when it
    accepts the source (and the mode is in the table) [decrypt] goes on to
    the remote call, flagged secure, whatever the destination's
    [nonsecureMemory] is. *)
Theorem decrypt_destination_type
    this keyId iv mode pattern hSource offset subSamples hDestination
    errorDetailMsg :
  mInitCheck this = OK ->
  (V1_0.type hDestination = V1_0.BufferType_unlisted ->
   decrypt this keyId iv mode pattern hSource offset subSamples hDestination
     errorDetailMsg
   = Returns (UNKNOWN_ERROR, errorDetailMsg, this) [])
  /\ (V1_0.type hDestination = V1_0.NATIVE_HANDLE ->
      mode <> CryptoPlugin.kMode_unlisted ->
      (checkSharedBuffer this hSource <> OK ->
       decrypt this keyId iv mode pattern hSource offset subSamples
         hDestination errorDetailMsg
       = Returns (checkSharedBuffer this hSource, errorDetailMsg, this) [])
      /\ (checkSharedBuffer this hSource = OK ->
          match mPluginV1_2 this, mPlugin this with
          | Some _, _ =>
              exists args,
                calls_of
                  (decrypt this keyId iv mode pattern hSource offset
                     subSamples hDestination errorDetailMsg)
                = [Call_decrypt_1_2 args]
                /\ arg_secure args = true
                /\ arg_destination args = hDestination
          | None, Some _ =>
              exists args,
                calls_of
                  (decrypt this keyId iv mode pattern hSource offset
                     subSamples hDestination errorDetailMsg)
                = [Call_decrypt args]
                /\ arg_secure args = true
                /\ arg_destination args = hDestination
          | None, None =>
              decrypt this keyId iv mode pattern hSource offset subSamples
                hDestination errorDetailMsg
              = Aborts []
          end)).
Proof.
  intros Hinit. split.
  - intros Htype. unfold decrypt.
    apply Z.eqb_eq in Hinit. rewrite Hinit, Htype. simpl.
    by destruct mode.
  - intros Htype Hmode. split.
    + intros Hsource. unfold decrypt.
      apply Z.eqb_eq in Hinit. apply Z.eqb_neq in Hsource.
      rewrite Hinit, Htype, Hsource. simpl.
      by destruct mode.
    + intros Hsource.
      pose proof (decrypt_validated_calls this keyId iv mode pattern hSource
                    offset subSamples hDestination errorDetailMsg Hinit
                    Hmode (or_introl Htype) Hsource) as Hcalls.
      destruct (mPluginV1_2 this) as [pluginV1_2 |];
        [| destruct (mPlugin this) as [plugin |]]; [| | done].
      all: destruct Hcalls
             as (args & Hcalls & _ & _ & _ & _ & _ & _ & _ & _ & Hd & Hs).
      all: exists args; rewrite Htype in Hs; by split_and!.
Qed.

(** *** Which calls change which fields *)

Lemma step_fields this op result this' calls :
  step this op = Returns (result, this') calls ->
  mFactories this' = mFactories this
  /\ (changes_heaps op = false ->
      mHeapSizes this' = mHeapSizes this
      /\ mHeapSeqNum this' = mHeapSeqNum this)
  /\ (changes_plugin op = false ->
      mInitCheck this' = mInitCheck this
      /\ mPlugin this' = mPlugin this
      /\ mPluginV1_2 this' = mPluginV1_2 this).
Proof.
  intros Hstep. apply step_effect in Hstep.
  destruct op; simpl; try (subst this'; by split_and!).
  - destruct Hstep as [status Hcreate].
    destruct (createPlugin_effect this uuid data)
      as (looped & calls' & Hloop & Hresult).
    destruct (createPlugin_from_effect (mFactories this) 0%nat this uuid
                data)
      as (looped' & calls'' & Hloop' & Hfactories & Hsizes & Hnum & _).
    rewrite Hloop in Hloop'. rewrite Hresult in Hcreate. simplify_eq.
    destruct (mInitCheck looped' =? NO_INIT); by split_and!.
  - destruct Hstep as [status Hdestroy].
    unfold destroyPlugin in Hdestroy. exec_unfold.
    destruct (mInitCheck this =? OK); simpl in Hdestroy; simplify_eq;
      by split_and!.
  - destruct Hstep as (seqNum & _ & Hset).
    apply setHeapBase_effect in Hset
      as [(_ & -> & _) | (memory & plugin & _ & _ & _ & _ & _ & -> & _)];
      by split_and!.
  - destruct (clearHeapBase_effect this seqNum) as (calls' & Hclear & _).
    rewrite Hclear in Hstep. simplify_eq.
    destruct (mHeapSizes this !! seqNum); by split_and!.
Qed.

(** X1.  Over any sequence of calls the factory list stays what the
    constructor found, so [isCryptoSchemeSupported] asks the same
    factories at every point of the object's life; the heap map and the
    counter change only through [setHeapBase] and [clearHeapBase]; and
    [mInitCheck] and the two plugin pointers change only through
    [createPlugin] and [destroyPlugin]. *)
Theorem execution_frame this history this' uuid :
  execution this history this' ->
  mFactories this' = mFactories this
  /\ isCryptoSchemeSupported this' uuid = isCryptoSchemeSupported this uuid
  /\ (Forall (fun call => changes_heaps (fst call) = false) history ->
      mHeapSizes this' = mHeapSizes this
      /\ mHeapSeqNum this' = mHeapSeqNum this)
  /\ (Forall (fun call => changes_plugin (fst call) = false) history ->
      mInitCheck this' = mInitCheck this
      /\ mPlugin this' = mPlugin this
      /\ mPluginV1_2 this' = mPluginV1_2 this).
Proof.
  intros Hexecution.
  induction Hexecution
    as [this | this op result calls this' history this'' Hstep _ IH].
  - by split_and!.
  - destruct (step_fields _ _ _ _ _ Hstep) as (Hfactories & Hheaps & Hplugin).
    destruct IH as (IHfactories & IHsupported & IHheaps & IHplugin).
    split_and!.
    + congruence.
    + unfold isCryptoSchemeSupported in *. congruence.
    + intros Hall. apply Forall_cons in Hall as [Hop Hall]. simpl in Hop.
      destruct (Hheaps Hop) as [<- <-]. by apply IHheaps.
    + intros Hall. apply Forall_cons in Hall as [Hop Hall]. simpl in Hop.
      destruct (Hplugin Hop) as (<- & <- & <-). by apply IHplugin.
Qed.

(** *** Failure of [setHeapBase], repeated [clearHeapBase] *)

(** X2.  A [setHeapBase] call that returns gives -1 exactly when the heap
    is null, the counter is negative or the state is not OK; it then leaves
    the object unchanged and issues no remote call.  Any other result is
    the counter's value before the call. *)
Theorem setHeapBase_failure this heap seqNum this' calls :
  setHeapBase this heap = Returns (seqNum, this') calls ->
  (seqNum = -1 <->
   heap = None \/ mHeapSeqNum this < 0 \/ mInitCheck this <> OK)
  /\ (seqNum = -1 -> this' = this /\ calls = [])
  /\ (seqNum <> -1 -> seqNum = mHeapSeqNum this).
Proof.
  unfold setHeapBase. exec_unfold. intros Hset.
  destruct heap as [memory |].
  2: { simplify_eq. split_and!; [split; [by left | done] | done | done]. }
  destruct (Z.ltb_spec (mHeapSeqNum this) 0) as [Hneg | Hnonneg].
  { simplify_eq.
    split_and!; [split; [by right; left | done] | done | done]. }
  destruct (Z.eqb_spec (mInitCheck this) OK) as [Hinit | Hinit];
    simpl in Hset.
  2: { simplify_eq.
       split_and!; [split; [by right; right | done] | done | done]. }
  destruct (mPlugin this) as [plugin |]; [| discriminate].
  simplify_eq. split_and!.
  - split; [lia |]. intros [? | [? | ?]]; [done | lia | done].
  - lia.
  - done.
Qed.

(** X3.  [clearHeapBase] always returns, with at most one remote call; a
    second [clearHeapBase] of the same number changes nothing and issues
    no remote call. *)
Theorem clearHeapBase_idempotent this seqNum :
  exists this' calls,
    clearHeapBase this seqNum = Returns this' calls
    /\ (length calls <= 1)%nat
    /\ clearHeapBase this' seqNum = Returns this' [].
Proof.
  unfold clearHeapBase. exec_unfold.
  destruct (mHeapSizes this !! seqNum) as [heapSize |] eqn:Hlookup.
  - destruct (mPlugin this) as [plugin |];
      (eexists; eexists; split; [reflexivity |]);
      simpl; rewrite lookup_delete_eq; split_and!;
      first [lia | reflexivity].
  - exists this, []. rewrite Hlookup. split_and!; [done | simpl; lia | done].
Qed.

(** *** Pass-through methods *)

(** X4.  [requiresSecureDecoderComponent] returns true only in the OK
    state, after exactly one remote call whose transaction succeeded with
    the answer true. *)
Theorem requiresSecureDecoderComponent_true this mime calls :
  requiresSecureDecoderComponent this mime = Returns true calls ->
  mInitCheck this = OK
  /\ calls = [Call_requiresSecureDecoderComponent mime]
  /\ exists plugin,
       mPlugin this = Some plugin
       /\ ICryptoPlugin_requiresSecureDecoderComponent plugin mime
          = Return_isOk true.
Proof.
  unfold requiresSecureDecoderComponent. exec_unfold. intros Hrequires.
  destruct (Z.eqb_spec (mInitCheck this) OK) as [Hinit | _];
    simpl in Hrequires; [| discriminate].
  destruct (mPlugin this) as [plugin |]; [| discriminate].
  destruct (ICryptoPlugin_requiresSecureDecoderComponent plugin mime)
    as [required |] eqn:Hreply; simplify_eq.
  split_and!; [done | done |]. by exists plugin.
Qed.

(** X5.  [decrypt] issues a remote call only for a call that passed the
    state gate, the mode switch and both buffer checks, and never more
    than one; when it returns, the object is unchanged. *)
Theorem decrypt_calls_only_when_validated
    this keyId iv mode pattern hSource offset subSamples hDestination
    errorDetailMsg :
  (calls_of
     (decrypt this keyId iv mode pattern hSource offset subSamples
        hDestination errorDetailMsg) <> [] ->
   decrypt_validated this mode hSource hDestination)
  /\ (length
        (calls_of
           (decrypt this keyId iv mode pattern hSource offset subSamples
              hDestination errorDetailMsg)) <= 1)%nat
  /\ (forall result detail' this' calls,
        decrypt this keyId iv mode pattern hSource offset subSamples
          hDestination errorDetailMsg
        = Returns (result, detail', this') calls ->
        this' = this).
Proof.
  split_and!.
  - intros Hcalls.
    destruct (decrypt_validated_dec this mode hSource hDestination)
      as [Hvalidated | Hnot]; [done |].
    destruct (decrypt_not_validated this keyId iv mode pattern hSource
                offset subSamples hDestination errorDetailMsg Hnot)
      as [status Hreturn].
    by rewrite Hreturn in Hcalls.
  - destruct (decrypt_validated_dec this mode hSource hDestination)
      as [(Hinit & Hmode & Hdestination & Hsource) | Hnot].
    + pose proof (decrypt_validated_calls this keyId iv mode pattern hSource
                    offset subSamples hDestination errorDetailMsg Hinit
                    Hmode Hdestination Hsource) as Hcalls.
      destruct (mPluginV1_2 this) as [pluginV1_2 |];
        [| destruct (mPlugin this) as [plugin |]].
      * destruct Hcalls as (args & -> & _). simpl. lia.
      * destruct Hcalls as (args & -> & _). simpl. lia.
      * rewrite Hcalls. simpl. lia.
    + destruct (decrypt_not_validated this keyId iv mode pattern hSource
                  offset subSamples hDestination errorDetailMsg Hnot)
        as [status ->].
      simpl. lia.
  - intros result detail' this' calls Hdecrypt.
    by eapply decrypt_object.
Qed.

(** *** Sequence numbers and registered heaps over a history *)

Lemma heap_seqNums_cons op result history :
  heap_seqNums ((op, result) :: history)
  = heap_seqNums [(op, result)] ++ heap_seqNums history.
Proof.
  simpl. destruct op; try done. destruct result; try done.
  by destruct (seqNum =? -1).
Qed.

(** A call either hands out no sequence number, keeps the counter and
    registers nothing new, or is the [setHeapBase] that hands out the
    counter's value and registers the heap under it. *)
Lemma step_heap_cases this op result this' calls :
  step this op = Returns (result, this') calls ->
  (heap_seqNums [(op, result)] = []
   /\ mHeapSeqNum this' = mHeapSeqNum this
   /\ forall key,
        is_Some (mHeapSizes this' !! key) ->
        is_Some (mHeapSizes this !! key))
  \/ (exists memory,
        op = Op_setHeapBase (Some memory)
        /\ 0 <= mHeapSeqNum this
        /\ heap_seqNums [(op, result)] = [mHeapSeqNum this]
        /\ mHeapSeqNum this' = wrap_signed 32 (mHeapSeqNum this + 1)
        /\ mHeapSizes this'
           = <[mHeapSeqNum this
               := wrap_unsigned size_bits (HidlMemory.size memory)]>
               (mHeapSizes this)).
Proof.
  intros Hstep.
  destruct (step_fields _ _ _ _ _ Hstep) as (_ & Hheaps & _).
  apply step_effect in Hstep.
  destruct op; simpl in Hheaps;
    try (left; destruct (Hheaps eq_refl) as [Hs Hn];
         split_and!; [done | done | by rewrite Hs]).
  - destruct Hstep as (seqNum & -> & Hset).
    apply setHeapBase_effect in Hset
      as [(-> & -> & _)
         | (memory & plugin & -> & _ & _ & Hnonneg & -> & -> & _)].
    + left. by split_and!.
    + right. exists memory. simpl.
      destruct (Z.eqb_spec (mHeapSeqNum this) (-1)) as [| _]; [lia |].
      by split_and!.
  - left.
    destruct (clearHeapBase_effect this seqNum) as (calls' & Hclear & _).
    rewrite Hclear in Hstep. simplify_eq.
    split_and!; [done | by destruct (mHeapSizes this !! seqNum) |].
    intros key Hkey.
    destruct (mHeapSizes this !! seqNum) eqn:Hlookup; [| done].
    simpl in Hkey. apply lookup_delete_is_Some in Hkey. tauto.
Qed.

Lemma execution_registered_keys this history this' key :
  execution this history this' ->
  is_Some (mHeapSizes this' !! key) ->
  is_Some (mHeapSizes this !! key) \/ In key (heap_seqNums history).
Proof.
  intros Hexecution.
  induction Hexecution
    as [this | this op result calls this' history this'' Hstep _ IH];
    intros Hkey; [by left |].
  rewrite heap_seqNums_cons, in_app_iff.
  destruct (IH Hkey) as [Hbefore | Hlater]; [| tauto].
  destruct (step_heap_cases _ _ _ _ _ Hstep)
    as [(_ & _ & Hkeys) | (memory & _ & _ & -> & _ & Hsizes)].
  - left. by apply Hkeys.
  - rewrite Hsizes in Hbefore.
    destruct (decide (key = mHeapSeqNum this)) as [-> | Hne].
    + right. left. by left.
    + rewrite lookup_insert_ne in Hbefore by done. by left.
Qed.

Lemma reachable_heap_numbering this : reachable this -> heap_numbering this.
Proof.
  intros (services & history & Hexecution).
  by destruct (execution_heap_seqNums _ _ _ Hexecution
                 (CryptoHalHidl_new_heap_numbering services))
    as (Hnumbering & _).
Qed.



(** X6.  Every key of the heap-size map is a sequence number that an
    earlier [setHeapBase] of this object returned: a number that was never
    returned has no entry, and [clearHeapBase] of it changes nothing and
    issues no remote call. *)
Theorem registered_keys_were_returned services history this seqNum :
  execution (CryptoHalHidl_new services) history this ->
  ~ In seqNum (heap_seqNums history) ->
  mHeapSizes this !! seqNum = None
  /\ clearHeapBase this seqNum = Returns this [].
Proof.
  intros Hexecution Hnever.
  assert (Hnone : mHeapSizes this !! seqNum = None).
  { destruct (mHeapSizes this !! seqNum) as [heapSize |] eqn:Hlookup;
      [| done].
    destruct (execution_registered_keys _ _ _ seqNum Hexecution)
      as [[stale Hstale] | Hreturned]; [by eexists | | done].
    simpl in Hstale. by rewrite lookup_empty in Hstale. }
  split; [done |]. unfold clearHeapBase. by rewrite Hnone.
Qed.


(** The [uint32_t] bufferId made from a sequence number names that number
    again in [checkSharedBuffer]. *)
Lemma bufferId_of_seqNum seqNum :
  0 <= seqNum <= INT32_MAX ->
  wrap_signed 32 (wrap_unsigned 32 seqNum) = seqNum.
Proof.
  unfold INT32_MAX. intros Hrange.
  change (2 ^ 31) with 2147483648 in Hrange.
  rewrite wrap_unsigned_small
    by (change (2 ^ 32) with 4294967296; lia).
  apply wrap_signed_small; [lia |].
  change (2 ^ (32 - 1)) with 2147483648. lia.
Qed.

(** X8.  Registering and clearing compose: on a reachable object, a
    successful [setHeapBase] followed by [clearHeapBase] of the returned
    number restores the heap-size map, while the counter keeps its advanced
    value; the two calls send the heap and then a null memory under the
    same bufferId; afterwards [checkSharedBuffer] rejects every buffer with
    that bufferId. *)
Theorem setHeapBase_clearHeapBase this heap seqNum registered calls :
  reachable this ->
  setHeapBase this heap = Returns (seqNum, registered) calls ->
  seqNum <> -1 ->
  exists memory cleared,
    heap = Some memory
    /\ calls
       = [Call_setSharedBufferBase (Some memory) (wrap_unsigned 32 seqNum)]
    /\ clearHeapBase registered seqNum
       = Returns cleared
           [Call_setSharedBufferBase None (wrap_unsigned 32 seqNum)]
    /\ mHeapSizes cleared = mHeapSizes this
    /\ mHeapSeqNum cleared = wrap_signed 32 (seqNum + 1)
    /\ mHeapSeqNum cleared <> mHeapSeqNum this
    /\ forall buffer,
         V1_0.bufferId buffer = wrap_unsigned 32 seqNum ->
         checkSharedBuffer cleared buffer = UNKNOWN_ERROR.
Proof.
  intros Hreachable Hset Hsuccess.
  destruct (reachable_heap_numbering this Hreachable) as [Hint Hkeys].
  apply setHeapBase_effect in Hset
    as [(-> & _)
       | (memory & plugin & -> & Hplugin & _ & Hnonneg & Hseq & -> & ->)];
    [done |].
  destruct (setHeapBase_issues this memory seqNum Hint Hnonneg Hseq)
    as (Hissued & _ & _).
  assert (Hfresh : mHeapSizes this !! seqNum = None).
  { destruct (mHeapSizes this !! seqNum) as [heapSize |] eqn:Hlookup;
      [| done].
    assert (is_Some (mHeapSizes this !! seqNum)) as Hsome by by eexists.
    specialize (Hkeys seqNum Hsome). lia. }
  exists memory. eexists. split; [done |]. split; [done |].
  unfold clearHeapBase. exec_unfold.
  rewrite lookup_insert_eq, Hplugin. split; [reflexivity |]. simpl.
  rewrite delete_insert_eq, delete_id by done.
  split_and!; [done | done | |].
  - subst seqNum. unfold is_int32, INT32_MIN, INT32_MAX in Hint.
    rewrite wrap_signed_32_succ by (unfold INT32_MAX; lia).
    unfold INT32_MAX, INT32_MIN.
    destruct (Z.eqb_spec (mHeapSeqNum this) (2 ^ 31 - 1)); lia.
  - intros buffer Hid. unfold checkSharedBuffer. simpl.
    rewrite Hid, bufferId_of_seqNum, Hfresh; [done |].
    unfold is_int32, INT32_MIN, INT32_MAX in *. lia.
Qed.

(** *** Which plugin [createPlugin] keeps *)

(** The loop of [createPlugin] leaves in [mPlugin] what the last
    supporting factory created, keeps [mPluginV1_2] the 1.2 view of a bound
    plugin, and asks exactly the supporting factories for a plugin. *)
Lemma createPlugin_from_plugin factories : forall index this uuid data,
  exists this' calls,
    createPlugin_from index factories this uuid data = Returns this' calls
    /\ mPlugin this'
       = match last (supporting_factories uuid factories) with
         | Some factory => created_plugin factory uuid data
         | None => mPlugin this
         end
    /\ (v1_2_of_bound this -> v1_2_of_bound this')
    /\ length (List.filter is_createPlugin_call calls)
       = length (supporting_factories uuid factories).
Proof.
  induction factories as [| factory rest IH]; intros index this uuid data.
  - exists this, []. by split_and!.
  - simpl. unfold makeCryptoPlugin, toHidlVec, supporting_factories.
    exec_unfold. fold (supporting_factories uuid rest).
    destruct (ICryptoFactory_isCryptoSchemeSupported factory uuid)
      eqn:Hsupported.
    + assert (Hlast : forall kept : option ICryptoPlugin,
                 kept = created_plugin factory uuid data ->
                 match last (supporting_factories uuid rest) with
                 | Some later => created_plugin later uuid data
                 | None => kept
                 end
                 = match last (factory :: supporting_factories uuid rest)
                   with
                   | Some later => created_plugin later uuid data
                   | None => mPlugin this
                   end).
      { intros kept ->. rewrite last_cons.
        by destruct (last (supporting_factories uuid rest)). }
      unfold created_plugin in Hlast.
      destruct (ICryptoFactory_createPlugin factory uuid data)
        as [[status hPlugin] |] eqn:Hcreate; simpl.
      * destruct (decide (status = Status_OK)) as [Hok | Hok];
          [destruct hPlugin as [created |] |]; simpl;
          match goal with
          | |- context [createPlugin_from _ _ ?t _ _] =>
              destruct (IH (S index) t uuid data)
                as (this' & calls & -> & Hplugin & Hview & Hcount)
          end;
          (eexists; eexists; split; [reflexivity |]);
          simpl in *; split_and!;
          [ rewrite Hplugin; by apply Hlast
          | intros _; apply Hview; intros plugin; simpl; congruence
          | by rewrite Hcount
          | rewrite Hplugin; by apply Hlast
          | intros _; apply Hview; intros plugin; simpl; congruence
          | by rewrite Hcount
          | rewrite Hplugin; by apply Hlast
          | intros _; apply Hview; intros plugin; simpl; congruence
          | by rewrite Hcount ].
      * match goal with
        | |- context [createPlugin_from _ _ ?t _ _] =>
            destruct (IH (S index) t uuid data)
              as (this' & calls & -> & Hplugin & Hview & Hcount)
        end.
        eexists; eexists; split; [reflexivity |].
        simpl in *; split_and!.
        -- rewrite Hplugin. by apply Hlast.
        -- intros _. apply Hview. intros plugin. simpl. congruence.
        -- by rewrite Hcount.
    + destruct (IH (S index) this uuid data)
        as (this' & calls & -> & Hplugin & Hview & Hcount).
      eexists; eexists; split; [reflexivity |].
      by split_and!.
Qed.

(** X9.  [createPlugin] asks every supporting factory for a plugin, one
    request per supporting factory, and keeps in [mPlugin] the result of
    the last of them in [mFactories] order (null when that factory created
    none); with no supporting factory [mPlugin] is left as it was.  The
    status returned is the [mInitCheck] of the object afterwards. *)
Theorem createPlugin_keeps_last_supporting this uuid data :
  exists status this' calls,
    createPlugin this uuid data = Returns (status, this') calls
    /\ status = mInitCheck this'
    /\ mPlugin this'
       = match last (supporting_factories uuid (mFactories this)) with
         | Some factory => created_plugin factory uuid data
         | None => mPlugin this
         end
    /\ length (List.filter is_createPlugin_call calls)
       = length (supporting_factories uuid (mFactories this)).
Proof.
  destruct (createPlugin_effect this uuid data)
    as (looped & calls & Hloop & Hresult).
  destruct (createPlugin_from_plugin (mFactories this) 0%nat this uuid data)
    as (looped' & calls' & Hloop' & Hplugin & _ & Hcount).
  rewrite Hloop in Hloop'. simplify_eq.
  eexists; eexists; exists calls'. split; [exact Hresult |].
  split; [done |]. split; [| done].
  by destruct (mInitCheck looped' =? NO_INIT).
Qed.

Lemma step_v1_2_of_bound this op result this' calls :
  v1_2_of_bound this ->
  step this op = Returns (result, this') calls ->
  v1_2_of_bound this'.
Proof.
  intros Hview Hstep.
  destruct (step_fields _ _ _ _ _ Hstep) as (_ & _ & Hplugin).
  apply step_effect in Hstep.
  destruct op; simpl in Hplugin;
    try (destruct (Hplugin eq_refl) as (_ & Hp & Hv);
         unfold v1_2_of_bound; by rewrite Hp, Hv).
  - destruct Hstep as [status Hcreate].
    destruct (createPlugin_effect this uuid data)
      as (looped & calls' & Hloop & Hresult).
    destruct (createPlugin_from_plugin (mFactories this) 0%nat this uuid
                data)
      as (looped' & calls'' & Hloop' & _ & Hkept & _).
    rewrite Hloop in Hloop'. rewrite Hresult in Hcreate. simplify_eq.
    destruct (mInitCheck looped' =? NO_INIT); by apply Hkept.
  - destruct Hstep as [status Hdestroy].
    unfold destroyPlugin in Hdestroy. exec_unfold.
    destruct (mInitCheck this =? OK); simpl in Hdestroy; simplify_eq;
      [| done].
    by intros plugin.
Qed.

Lemma reachable_v1_2_of_bound this : reachable this -> v1_2_of_bound this.
Proof.
  intros (services & history & Hexecution).
  eapply (execution_invariant v1_2_of_bound); [| done |].
  - intros; by eapply step_v1_2_of_bound.
  - by intros plugin.
Qed.

(** *** Buffers within registered heaps are accepted *)

Lemma step_heap_sizes_typed this op result this' calls :
  0 <= size_bits ->
  heap_sizes_typed this ->
  step this op = Returns (result, this') calls ->
  heap_sizes_typed this'.
Proof.
  intros Hbits Htyped Hstep.
  destruct (step_heap_cases _ _ _ _ _ Hstep)
    as [(_ & _ & Hkeys) | (memory & _ & _ & _ & _ & Hsizes)].
  - destruct (step_fields _ _ _ _ _ Hstep) as (_ & Hheaps & _).
    apply step_effect in Hstep.
    destruct op; simpl in Hheaps;
      try (destruct (Hheaps eq_refl) as [Hs _];
           unfold heap_sizes_typed; by rewrite Hs).
    + destruct Hstep as (seqNum & _ & Hset).
      apply setHeapBase_effect in Hset
        as [(_ & -> & _) | (memory & plugin & _ & _ & _ & _ & _ & -> & _)];
        [done |].
      intros key heapSize. simpl.
      destruct (decide (key = seqNum)) as [-> | Hne].
      * rewrite lookup_insert_eq. intros [= <-].
        unfold wrap_unsigned, SIZE_MAX.
        pose proof (Z.mod_pos_bound (HidlMemory.size memory)
                      (2 ^ size_bits)
                      ltac:(apply Z.pow_pos_nonneg; lia)).
        lia.
      * rewrite lookup_insert_ne by done. apply Htyped.
    + destruct (clearHeapBase_effect this seqNum) as (calls' & Hclear & _).
      rewrite Hclear in Hstep. simplify_eq.
      destruct (mHeapSizes this !! seqNum); [| done].
      intros key heapSize. simpl. intros Hlookup.
      apply lookup_delete_Some in Hlookup as [_ Hlookup].
      by eapply Htyped.
  - intros key heapSize. rewrite Hsizes.
    destruct (decide (key = mHeapSeqNum this)) as [-> | Hne].
    + rewrite lookup_insert_eq. intros [= <-].
      unfold wrap_unsigned, SIZE_MAX.
      pose proof (Z.mod_pos_bound (HidlMemory.size memory) (2 ^ size_bits)
                    ltac:(apply Z.pow_pos_nonneg; lia)).
      lia.
    + rewrite lookup_insert_ne by done. apply Htyped.
Qed.

Lemma reachable_heap_sizes_typed this :
  0 <= size_bits -> reachable this -> heap_sizes_typed this.
Proof.
  intros Hbits (services & history & Hexecution).
  eapply (execution_invariant heap_sizes_typed); [| done |].
  - intros; by eapply step_heap_sizes_typed.
  - intros key heapSize. simpl. by rewrite lookup_empty.
Qed.

(** [checkSharedBuffer] accepts a buffer whose heap is registered with a
    [size_t] size that offset plus size do not exceed. *)
Lemma checkSharedBuffer_accepts this buffer heapSize :
  0 < size_bits <= mem_bits ->
  mHeapSizes this !! wrap_signed 32 (V1_0.bufferId buffer) = Some heapSize ->
  heapSize <= SIZE_MAX ->
  0 <= V1_0.offset buffer ->
  0 <= V1_0.size buffer ->
  V1_0.offset buffer + V1_0.size buffer <= heapSize ->
  checkSharedBuffer this buffer = OK.
Proof.
  intros Hbits Hlookup Hmax Hoffset Hsize Hbound.
  unfold checkSharedBuffer. rewrite Hlookup.
  unfold SIZE_MAX in *.
  pose proof (pow2_le_mono size_bits mem_bits ltac:(lia)) as Hpow.
  assert (0 < 2 ^ size_bits) by (apply Z.pow_pos_nonneg; lia).
  rewrite Z.max_r by lia.
  rewrite !wrap_unsigned_small by lia.
  destruct (Z.ltb_spec heapSize (V1_0.offset buffer + V1_0.size buffer));
    [lia |].
  destruct (Z.ltb_spec (2 ^ size_bits - 1 - V1_0.offset buffer)
              (V1_0.size buffer)); [lia | done].
Qed.

Lemma within_registered_heap_accepted this buffer :
  0 < size_bits <= mem_bits ->
  reachable this ->
  0 <= V1_0.offset buffer ->
  0 <= V1_0.size buffer ->
  within_registered_heap this buffer ->
  checkSharedBuffer this buffer = OK.
Proof.
  intros Hbits Hreachable Hoffset Hsize (heapSize & Hlookup & Hbound).
  pose proof (reachable_heap_sizes_typed this ltac:(lia) Hreachable _ _
                Hlookup) as [_ Hmax].
  by eapply checkSharedBuffer_accepts.
Qed.

(** X10.  A valid [decrypt] call is forwarded: on a reachable object in
    the OK state with a bound plugin, a mode of the table, a source buffer
    within a registered heap and a destination that is a native handle or
    a buffer within a registered heap, [decrypt] returns after exactly one
    remote call carrying the translated arguments, on the 1.2 interface
    exactly when the bound plugin has one. *)
Theorem decrypt_forwards_valid_call
    this plugin keyId iv mode pattern hSource offset subSamples hDestination
    errorDetailMsg :
  0 < size_bits <= mem_bits ->
  reachable this ->
  mInitCheck this = OK ->
  mPlugin this = Some plugin ->
  mode <> CryptoPlugin.kMode_unlisted ->
  0 <= V1_0.offset hSource /\ 0 <= V1_0.size hSource ->
  within_registered_heap this hSource ->
  V1_0.type hDestination = V1_0.NATIVE_HANDLE
  \/ (V1_0.type hDestination = V1_0.SHARED_MEMORY
      /\ 0 <= V1_0.offset (V1_0.nonsecureMemory hDestination)
      /\ 0 <= V1_0.size (V1_0.nonsecureMemory hDestination)
      /\ within_registered_heap this (V1_0.nonsecureMemory hDestination)) ->
  exists args result,
    wire_arguments keyId iv mode pattern hSource offset subSamples
      hDestination args
    /\ decrypt this keyId iv mode pattern hSource offset subSamples
         hDestination errorDetailMsg
       = Returns result
           [match ICryptoPlugin_castFrom_V1_2 plugin with
            | Some _ => Call_decrypt_1_2 args
            | None => Call_decrypt args
            end].
Proof.
  intros Hbits Hreachable Hinit Hplugin Hmode [Hoffset Hsize] Hsource
    Hdestination.
  assert (Hsrc : checkSharedBuffer this hSource = OK)
    by (by apply within_registered_heap_accepted).
  assert (Hdst : V1_0.type hDestination = V1_0.NATIVE_HANDLE
                 \/ (V1_0.type hDestination = V1_0.SHARED_MEMORY
                     /\ checkSharedBuffer this
                          (V1_0.nonsecureMemory hDestination) = OK)).
  { destruct Hdestination as [Hnative | (Hshared & Ho & Hs & Hwithin)];
      [by left | right].
    split; [done |]. by apply within_registered_heap_accepted. }
  destruct (decrypt_validated_outcome this keyId iv mode pattern hSource
              offset subSamples hDestination errorDetailMsg Hinit Hmode
              Hdst Hsrc) as (args & Hargs & ->).
  pose proof (decrypt_remote_calls this args
                {| err := UNKNOWN_ERROR; bytesWritten := 0;
                   detail := errorDetailMsg |}) as Hremote.
  rewrite (reachable_v1_2_of_bound this Hreachable plugin Hplugin) in Hremote.
  rewrite Hplugin in Hremote.
  exists args.
  destruct (ICryptoPlugin_castFrom_V1_2 plugin) as [pluginV1_2 |];
    destruct Hremote as [[isOk locals] ->]; by eexists.
Qed.

(** *** What the constructor finds *)

Lemma registered_factories_resolved services factory :
  factory
  ∈ (if defaultServiceManager1_2 services
     then match listManifestByInterface_V1_0 services with
          | Return_isOk instances => omap (V1_0_getService services) instances
          | Return_failed => []
          end
          ++ match listManifestByInterface_V1_1 services with
             | Return_isOk instances =>
                 omap (V1_1_getService services) instances
             | Return_failed => []
             end
     else [])
  <-> resolved_factory services factory.
Proof.
  unfold resolved_factory.
  destruct (defaultServiceManager1_2 services).
  - rewrite elem_of_app.
    destruct (listManifestByInterface_V1_0 services) as [instances0 |];
      destruct (listManifestByInterface_V1_1 services) as [instances1 |];
      rewrite ?list_elem_of_omap, ?elem_of_nil;
      (split;
       [ intros Hin; (split; [done |]);
         destruct Hin as [Hin | Hin]; [left | right];
         try (by destruct Hin);
         destruct Hin as (instance & Hin & Hget);
         (eexists; exists instance; by split_and!)
       | intros [_ [Hin | Hin]];
         destruct Hin as (instances & instance & Heq & Hin & Hget);
         simplify_eq;
         first [left; by exists instance | right; by exists instance] ]).
  - rewrite elem_of_nil. split; [done | by intros [? _]].
Qed.

Lemma fallback_membership (registered : list ICryptoFactory)
    (passthrough : option ICryptoFactory) factory :
  factory
  ∈ match registered with
    | [] => match passthrough with
            | Some service => [service]
            | None => []
            end
    | _ :: _ => registered
    end
  <-> factory ∈ registered
      \/ (registered = [] /\ passthrough = Some factory).
Proof.
  destruct registered as [| first rest]; [destruct passthrough |].
  - rewrite list_elem_of_singleton, elem_of_nil.
    split; [intros ->; by right | intros [[] | [_ [= ->]]]; done].
  - rewrite elem_of_nil. split; [done | intros [[] | [_ [=]]]].
  - split; [by left | intros [Hin | [[=] _]]; done].
Qed.

(** With no supporting factory the loop of [createPlugin] only asks each
    factory, as [isCryptoSchemeSupported] does, and leaves the object as
    it is. *)
Lemma createPlugin_from_unsupported factories : forall index this uuid data
    calls,
  isCryptoSchemeSupported_from index factories uuid = Returns false calls ->
  createPlugin_from index factories this uuid data = Returns this calls
  /\ List.filter is_createPlugin_call calls = [].
Proof.
  induction factories as [| factory rest IH];
    intros index this uuid data calls Hasked; simpl in *; exec_unfold.
  - by simplify_eq.
  - destruct (ICryptoFactory_isCryptoSchemeSupported factory uuid);
      simpl in *; [by simplify_eq |].
    destruct (isCryptoSchemeSupported_from (S index) rest uuid)
      as [supported calls' |] eqn:Hrest; [| discriminate].
    simplify_eq.
    by destruct (IH (S index) this uuid data calls' Hrest) as [-> Hnone].
Qed.

(** *** Calls through a null plugin *)

(** X11.  A call that reaches the HAL only through the plugin pointers
    fails to return only by the dereference of a null [mPlugin] in the OK
    state, and then before any remote call was issued.  So with a plugin
    bound, or outside the OK state, every such call returns. *)
Theorem aborts_only_without_plugin this op calls :
  through_plugin op = true ->
  step this op = Aborts calls ->
  mInitCheck this = OK /\ mPlugin this = None /\ calls = [].
Proof.
  intros Hop Hstep. destruct op; try discriminate Hop; simpl in Hstep.
  - exec_unfold. discriminate.
  - exec_unfold. unfold destroyPlugin in Hstep. exec_unfold.
    by destruct (mInitCheck this =? OK).
  - exec_unfold. unfold requiresSecureDecoderComponent in Hstep. exec_unfold.
    destruct (Z.eqb_spec (mInitCheck this) OK) as [Hok | Hok];
      simpl in Hstep; [| discriminate].
    destruct (mPlugin this) as [plugin |]; simpl in Hstep;
      [by repeat case_match | by simplify_eq].
  - exec_unfold. unfold setHeapBase in Hstep. exec_unfold.
    destruct heap as [memory |]; [| discriminate].
    destruct (mHeapSeqNum this <? 0); [discriminate |].
    destruct (Z.eqb_spec (mInitCheck this) OK) as [Hok | Hok];
      simpl in Hstep; [| discriminate].
    destruct (mPlugin this) as [plugin |]; simpl in Hstep;
      [discriminate | by simplify_eq].
  - exec_unfold.
    destruct (clearHeapBase_effect this seqNum) as (calls' & Hreturns & _).
    by rewrite Hreturns in Hstep.
  - exec_unfold. unfold decrypt, decrypt_remote in Hstep. exec_unfold.
    destruct (Z.eqb_spec (mInitCheck this) OK) as [Hok | Hok];
      simpl in Hstep; [| discriminate].
    destruct (mPlugin this) as [plugin |]; simpl in Hstep.
    + by repeat case_match; simplify_eq.
    + split_and!; [done | done |].
      repeat case_match; by simplify_eq.
  - exec_unfold. unfold notifyResolution in Hstep. exec_unfold.
    destruct (Z.eqb_spec (mInitCheck this) OK) as [Hok | Hok];
      simpl in Hstep; [| discriminate].
    destruct (mPlugin this) as [plugin |]; simpl in Hstep;
      [discriminate | by simplify_eq].
  - exec_unfold. unfold setMediaDrmSession in Hstep. exec_unfold.
    destruct (Z.eqb_spec (mInitCheck this) OK) as [Hok | Hok];
      simpl in Hstep; [| discriminate].
    destruct (mPlugin this) as [plugin |]; simpl in Hstep;
      [by repeat case_match | by simplify_eq].
Qed.

Section Discovery.

Hypothesis NO_INIT_differs : NO_INIT <> ERROR_UNSUPPORTED.

(** X12.  The factories of a new object are exactly the instances that the
    service manager lists and [getService] resolves, or, when there is
    none of those, the default passthrough service alone; the object
    starts in ERROR_UNSUPPORTED exactly when it found no factory and in
    NO_INIT otherwise, with no plugin, no heap and the counter at zero. *)
Theorem constructor_discovery services :
  (forall factory,
     factory ∈ mFactories (CryptoHalHidl_new services) <->
     resolved_factory services factory
     \/ ((forall other, ~ resolved_factory services other)
         /\ getService_default services = Some factory))
  /\ (mInitCheck (CryptoHalHidl_new services) = ERROR_UNSUPPORTED <->
      mFactories (CryptoHalHidl_new services) = [])
  /\ (mInitCheck (CryptoHalHidl_new services) = NO_INIT <->
      mFactories (CryptoHalHidl_new services) <> [])
  /\ mPlugin (CryptoHalHidl_new services) = None
  /\ mPluginV1_2 (CryptoHalHidl_new services) = None
  /\ mHeapSizes (CryptoHalHidl_new services) = ∅
  /\ mHeapSeqNum (CryptoHalHidl_new services) = 0.
Proof.
  split_and!; try reflexivity.
  - intros factory. simpl. unfold makeCryptoFactories.
    rewrite fallback_membership, registered_factories_resolved.
    split; intros [Hresolved | [Hnone Hdefault]]; try (by left); right.
    + split; [| done]. intros other Hother.
      apply registered_factories_resolved in Hother.
      rewrite Hnone in Hother. by apply elem_of_nil in Hother.
    + split; [| done].
      match goal with
      | |- ?registered = [] =>
          destruct registered as [| first rest] eqn:Hregistered; [done |]
      end.
      exfalso. apply (Hnone first).
      apply registered_factories_resolved. rewrite Hregistered. by left.
  - simpl. by destruct (makeCryptoFactories services); simpl; split.
  - simpl. by destruct (makeCryptoFactories services); simpl; split.
Qed.

End Discovery.

(** *** What the headers guarantee about the status codes *)

Section StatusCodes.

Hypothesis OK_is_zero : OK = 0.
Hypothesis errors_negative :
  NO_INIT < 0 /\ UNKNOWN_ERROR < 0 /\ DEAD_OBJECT < 0
  /\ ERROR_UNSUPPORTED < 0.

(** *** Buffer validation *)

Lemma UNKNOWN_ERROR_not_OK : (UNKNOWN_ERROR =? OK) = false.
Proof. apply Z.eqb_neq. lia. Qed.

Lemma OK_eqb_OK : (OK =? OK) = true.
Proof. apply Z.eqb_refl. Qed.

Lemma checkSharedBuffer_status this buffer :
  checkSharedBuffer this buffer = OK
  \/ checkSharedBuffer this buffer = UNKNOWN_ERROR.
Proof.
  unfold checkSharedBuffer.
  destruct (mHeapSizes this !! _); [| by right].
  destruct (_ || _); [by right | by left].
Qed.

(** A buffer that [checkSharedBuffer] accepts lies within a registered
    heap: the test on [SIZE_MAX - offset] excludes the sums that wrap. *)
Lemma checkSharedBuffer_OK this buffer :
  0 < size_bits <= mem_bits ->
  size_t_offset buffer ->
  checkSharedBuffer this buffer = OK ->
  within_registered_heap this buffer.
Proof.
  intros Hbits [Hoffset Hsize] Hcheck.
  unfold checkSharedBuffer in Hcheck. unfold within_registered_heap.
  destruct (mHeapSizes this !! _) as [heapSize |]; [| lia].
  exists heapSize. split; [reflexivity |].
  destruct (_ || _) eqn:Htest; [lia |].
  apply orb_false_elim in Htest as [Hsum Hmax].
  apply Z.ltb_ge in Hsum. apply Z.ltb_ge in Hmax.
  unfold SIZE_MAX in *.
  pose proof (pow2_le_mono size_bits mem_bits ltac:(lia)) as Hpow.
  assert (0 < 2 ^ size_bits) by (apply Z.pow_pos_nonneg; lia).
  rewrite Z.max_r in Hmax by lia.
  rewrite wrap_unsigned_small in Hmax by lia.
  rewrite wrap_unsigned_small in Hsum by lia.
  exact Hsum.
Qed.

Lemma mInitCheck_assigned_error this :
  mInitCheck_assigned this -> (mInitCheck this =? OK) = false ->
  mInitCheck this < 0.
Proof.
  intros Hassigned Hne. apply Z.eqb_neq in Hne.
  destruct Hassigned as [H | [H | [H | H]]]; lia.
Qed.

(** C1.  A [decrypt] call whose source buffer, or whose destination buffer
    of type SHARED_MEMORY, does not lie within a registered heap (the
    [bufferId] is not registered, or offset plus size exceeds the
    registered size as integers) returns a negative status and issues no
    remote call.  The offset of that buffer is a value of [size_t], which
    is no wider than the buffer fields. *)
Theorem decrypt_rejects_buffer_outside_heap
    this keyId iv mode pattern hSource offset subSamples hDestination
    errorDetailMsg :
  0 < size_bits <= mem_bits ->
  mInitCheck_assigned this ->
  (size_t_offset hSource /\ ~ within_registered_heap this hSource)
  \/ (V1_0.type hDestination = V1_0.SHARED_MEMORY
      /\ size_t_offset (V1_0.nonsecureMemory hDestination)
      /\ ~ within_registered_heap this (V1_0.nonsecureMemory hDestination)) ->
  exists status,
    decrypt this keyId iv mode pattern hSource offset subSamples hDestination
      errorDetailMsg
    = Returns (status, errorDetailMsg, this) []
    /\ status < 0.
Proof.
  intros Hbits Hassigned Houtside.
  unfold decrypt.
  destruct (mInitCheck this =? OK) eqn:Hinit; simpl.
  2: { eexists. split; [reflexivity |].
       by apply mInitCheck_assigned_error. }
  assert (Hreject : forall buffer,
             size_t_offset buffer ->
             ~ within_registered_heap this buffer ->
             checkSharedBuffer this buffer = UNKNOWN_ERROR).
  { intros buffer Htyped Hnot.
    destruct (checkSharedBuffer_status this buffer) as [Hok | Herr];
      [| done].
    exfalso. apply Hnot. by apply checkSharedBuffer_OK. }
  destruct mode; simpl;
    try (exists UNKNOWN_ERROR; split; [reflexivity | lia]).
  all: destruct (V1_0.type hDestination) eqn:Htype; simpl;
    try (exists UNKNOWN_ERROR; split; [reflexivity | lia]).
  all: destruct Houtside as [[Htyped Hout] | (Hshared & Htyped & Hout)];
    try discriminate.
  all: try (rewrite (Hreject _ Htyped Hout), UNKNOWN_ERROR_not_OK; simpl;
            exists UNKNOWN_ERROR; split; [reflexivity | lia]).
  all: destruct (checkSharedBuffer_status this
                   (V1_0.nonsecureMemory hDestination)) as [-> | ->];
    rewrite ?OK_eqb_OK, ?UNKNOWN_ERROR_not_OK; simpl;
    try (exists UNKNOWN_ERROR; split; [reflexivity | lia]).
  all: rewrite (Hreject _ Htyped Hout), UNKNOWN_ERROR_not_OK; simpl;
    exists UNKNOWN_ERROR; split; [reflexivity | lia].
Qed.

(** *** Plugin creation from the NO_INIT state *)

Section DistinctCodes.

Hypothesis NO_INIT_not_ERROR_UNSUPPORTED : NO_INIT <> ERROR_UNSUPPORTED.

Lemma step_unbound_before_init this op result this' calls :
  unbound_before_init this ->
  step this op = Returns (result, this') calls ->
  unbound_before_init this'.
Proof.
  unfold unbound_before_init.
  intros Hunbound Hstep. apply step_effect in Hstep.
  destruct op; try (by subst).
  - destruct Hstep as [status Hcreate].
    destruct (createPlugin_effect this uuid data)
      as (looped & calls' & _ & Hresult).
    rewrite Hresult in Hcreate. simplify_eq.
    destruct (mInitCheck looped =? NO_INIT) eqn:Hinit; simpl.
    + destruct (mPlugin looped); lia.
    + apply Z.eqb_neq in Hinit. tauto.
  - destruct Hstep as [status Hdestroy].
    unfold destroyPlugin in Hdestroy. exec_unfold.
    destruct (mInitCheck this =? OK); simpl in Hdestroy; simplify_eq; done.
  - destruct Hstep as (seqNum & _ & Hset).
    apply setHeapBase_effect in Hset
      as [(_ & -> & _) | (memory & plugin & _ & _ & _ & _ & _ & -> & _)];
      done.
  - destruct (clearHeapBase_effect this seqNum) as (calls' & Hclear & _).
    rewrite Hclear in Hstep. simplify_eq.
    by destruct (mHeapSizes this !! seqNum).
Qed.

Lemma reachable_unbound_before_init this :
  reachable this -> unbound_before_init this.
Proof.
  intros (services & history & Hexecution).
  eapply (execution_invariant unbound_before_init); [| done |].
  - intros; by eapply step_unbound_before_init.
  - by intros _.
Qed.

(** C3.  For a 16-byte uuid: every plugin creation that [createPlugin]
    requests goes to a factory of [mFactories] that answers
    [isCryptoSchemeSupported] with true for the uuid; the wrapper's
    [isCryptoSchemeSupported] returns true exactly when some factory of
    [mFactories] supports the uuid; and on a reachable object in the
    NO_INIT state, when no factory supports the uuid, [createPlugin]
    returns ERROR_UNSUPPORTED and the plugin stays null. *)
Theorem createPlugin_selects_supporting_factory this uuid data :
  length uuid = 16%nat ->
  (forall index u d,
     In (Call_Factory_createPlugin index u d)
       (calls_of (createPlugin this uuid data)) ->
     u = uuid
     /\ exists factory,
          mFactories this !! index = Some factory
          /\ ICryptoFactory_isCryptoSchemeSupported factory uuid = true)
  /\ (exists supported calls,
        isCryptoSchemeSupported this uuid = Returns supported calls
        /\ (supported = true <->
            Exists
              (fun factory =>
                 ICryptoFactory_isCryptoSchemeSupported factory uuid = true)
              (mFactories this)))
  /\ (reachable this ->
      mInitCheck this = NO_INIT ->
      Forall
        (fun factory =>
           ICryptoFactory_isCryptoSchemeSupported factory uuid = false)
        (mFactories this) ->
      exists calls,
        createPlugin this uuid data
        = Returns (ERROR_UNSUPPORTED, set_mInitCheck ERROR_UNSUPPORTED this)
            calls
        /\ mPlugin (set_mInitCheck ERROR_UNSUPPORTED this) = None).
Proof.
  intros _.
  destruct (createPlugin_effect this uuid data)
    as (looped & calls & Hloop & Hresult).
  destruct (createPlugin_from_effect (mFactories this) 0%nat this uuid data)
    as (looped' & calls' & Hloop' & _ & _ & _ & _ & Hcreated & Hnone).
  rewrite Hloop in Hloop'. simplify_eq.
  split_and!.
  - rewrite Hresult. simpl. intros index u d Hin.
    destruct (Hcreated index u d Hin) as (-> & factory & Hlookup & _ & Hs).
    split; [done |]. exists factory.
    by rewrite Nat.sub_0_r in Hlookup.
  - destruct (isCryptoSchemeSupported_from_returns uuid (mFactories this)
                0%nat) as [calls Hsupported].
    eexists; eexists; split; [exact Hsupported |].
    rewrite existsb_exists, Exists_exists.
    split; intros (factory & Hin & Hs); exists factory;
      (split; [by apply list_elem_of_In | done]).
  - intros Hreachable Hinit Hall.
    pose proof (reachable_unbound_before_init this Hreachable Hinit)
      as Hunbound.
    rewrite (Hnone Hall) in Hresult.
    rewrite Hinit, Z.eqb_refl, Hunbound in Hresult.
    exists calls'. by split.
Qed.

End DistinctCodes.

(** *** The result of the remote decrypt call *)

Section Translation.

Hypothesis toStatusT_OK : toStatusT Status_OK = OK.
Hypothesis toStatusT_1_2_OK : toStatusT_1_2 Status_V1_2_OK = OK.

Lemma uint32_to_ssize_t hBytesWritten :
  32 < size_bits ->
  is_unsigned 32 hBytesWritten ->
  wrap_signed size_bits hBytesWritten = hBytesWritten.
Proof.
  intros Hbits [Hlow Hhigh]. apply wrap_signed_small; [lia |].
  pose proof (pow2_le_mono 32 (size_bits - 1) ltac:(lia)).
  assert (0 < 2 ^ (size_bits - 1)) by (apply Z.pow_pos_nonneg; lia).
  lia.
Qed.

Lemma zero_to_ssize_t : 32 < size_bits -> wrap_signed size_bits 0 = 0.
Proof.
  intros Hbits. apply uint32_to_ssize_t; [done |].
  unfold is_unsigned. change (2 ^ 32) with 4294967296. lia.
Qed.

Lemma DEAD_OBJECT_not_OK : (DEAD_OBJECT =? OK) = false.
Proof. apply Z.eqb_neq. lia. Qed.

(** What [decrypt] returns after a 1.2 reply. *)
Lemma decrypt_return_1_2 this errorDetailMsg reply :
  32 < size_bits ->
  bytesWritten_is_uint32 reply ->
  (let '(isOk, locals) :=
     match reply with
     | Return_isOk (status, hBytesWritten, hDetailedError) =>
         (true,
          decrypt_1_2_callback
            {| err := UNKNOWN_ERROR; bytesWritten := 0;
               detail := errorDetailMsg |}
            status hBytesWritten hDetailedError)
     | Return_failed =>
         (false,
          {| err := UNKNOWN_ERROR; bytesWritten := 0;
             detail := errorDetailMsg |})
     end in
   decrypt_return this isOk locals)
  = (reply_result (reply_summary_1_2 reply) errorDetailMsg, this).
Proof.
  intros Hbits Htyped.
  destruct reply as [[[status hBytesWritten] hDetailedError] |]; simpl.
  - unfold decrypt_return, decrypt_1_2_callback, toString8. simpl.
    case_bool_decide as Hstatus.
    + rewrite decide_True by done. simpl.
      rewrite Hstatus, toStatusT_1_2_OK, Z.eqb_refl.
      by rewrite uint32_to_ssize_t.
    + rewrite decide_False by done. simpl.
      destruct (Z.eqb_spec (toStatusT_1_2 status) OK) as [Hok | _];
        [| done].
      rewrite zero_to_ssize_t by done. by rewrite Hok, OK_is_zero.
  - unfold decrypt_return. simpl. by rewrite DEAD_OBJECT_not_OK.
Qed.

(** What [decrypt] returns after a 1.0 reply. *)
Lemma decrypt_return_1_0 this errorDetailMsg reply :
  32 < size_bits ->
  bytesWritten_is_uint32 reply ->
  (let '(isOk, locals) :=
     match reply with
     | Return_isOk (status, hBytesWritten, hDetailedError) =>
         (true,
          decrypt_callback
            {| err := UNKNOWN_ERROR; bytesWritten := 0;
               detail := errorDetailMsg |}
            status hBytesWritten hDetailedError)
     | Return_failed =>
         (false,
          {| err := UNKNOWN_ERROR; bytesWritten := 0;
             detail := errorDetailMsg |})
     end in
   decrypt_return this isOk locals)
  = (reply_result (reply_summary reply) errorDetailMsg, this).
Proof.
  intros Hbits Htyped.
  destruct reply as [[[status hBytesWritten] hDetailedError] |]; simpl.
  - unfold decrypt_return, decrypt_callback, toString8. simpl.
    case_bool_decide as Hstatus.
    + rewrite decide_True by done. simpl.
      rewrite Hstatus, toStatusT_OK, Z.eqb_refl.
      by rewrite uint32_to_ssize_t.
    + rewrite decide_False by done. simpl.
      destruct (Z.eqb_spec (toStatusT status) OK) as [Hok | _]; [| done].
      rewrite zero_to_ssize_t by done. by rewrite Hok, OK_is_zero.
  - unfold decrypt_return. simpl. by rewrite DEAD_OBJECT_not_OK.
Qed.

(** C7.  A [decrypt] call that issues a remote decrypt call returns what
    the reply determines: DEAD_OBJECT for a failed transaction; for a
    reply with status OK the byte count of the reply, with the reply's
    detail string stored behind a non-null [errorDetailMsg]; for any other
    status its [toStatusT] translation.  The reply's byte count is a
    [uint32_t], and [ssize_t] is wider than 32 bits. *)
Theorem decrypt_reports_remote_result
    this keyId iv mode pattern hSource offset subSamples hDestination
    errorDetailMsg args :
  32 < size_bits ->
  (In (Call_decrypt_1_2 args)
     (calls_of
        (decrypt this keyId iv mode pattern hSource offset subSamples
           hDestination errorDetailMsg)) ->
   exists pluginV1_2,
     mPluginV1_2 this = Some pluginV1_2
     /\ (bytesWritten_is_uint32 (ICryptoPlugin_decrypt_1_2 pluginV1_2 args) ->
         decrypt this keyId iv mode pattern hSource offset subSamples
           hDestination errorDetailMsg
         = Returns
             (reply_result
                (reply_summary_1_2
                   (ICryptoPlugin_decrypt_1_2 pluginV1_2 args))
                errorDetailMsg, this)
             [Call_decrypt_1_2 args]))
  /\ (In (Call_decrypt args)
        (calls_of
           (decrypt this keyId iv mode pattern hSource offset subSamples
              hDestination errorDetailMsg)) ->
      exists plugin,
        mPluginV1_2 this = None
        /\ mPlugin this = Some plugin
        /\ (bytesWritten_is_uint32 (ICryptoPlugin_decrypt plugin args) ->
            decrypt this keyId iv mode pattern hSource offset subSamples
              hDestination errorDetailMsg
            = Returns
                (reply_result
                   (reply_summary (ICryptoPlugin_decrypt plugin args))
                   errorDetailMsg, this)
                [Call_decrypt args])).
Proof.
  intros Hbits.
  destruct (decrypt_validated_dec this mode hSource hDestination)
    as [(Hinit & Hmode & Hdestination & Hsource) | Hnot].
  2: { destruct (decrypt_not_validated this keyId iv mode pattern hSource
                   offset subSamples hDestination errorDetailMsg Hnot)
         as [status ->].
       split; intros []. }
  destruct (decrypt_validated_outcome this keyId iv mode pattern hSource
              offset subSamples hDestination errorDetailMsg Hinit Hmode
              Hdestination Hsource) as (args' & _ & ->).
  unfold decrypt_remote. exec_unfold.
  destruct (mPluginV1_2 this) as [pluginV1_2 |];
    [| destruct (mPlugin this) as [plugin |]].
  - split.
    + intros Hin. exists pluginV1_2. split; [done |].
      assert (args' = args) as ->.
      { destruct (ICryptoPlugin_decrypt_1_2 pluginV1_2 args')
          as [[[status hBytesWritten] hDetailedError] |];
          simpl in Hin; destruct Hin as [[= ->] | []]; done. }
      intros Htyped.
      pose proof (decrypt_return_1_2 this errorDetailMsg _ Hbits Htyped)
        as Hreturn.
      destruct (ICryptoPlugin_decrypt_1_2 pluginV1_2 args)
        as [[[status hBytesWritten] hDetailedError] |];
        simpl in *; by rewrite Hreturn.
    + intros Hin. exfalso.
      destruct (ICryptoPlugin_decrypt_1_2 pluginV1_2 args')
        as [[[status hBytesWritten] hDetailedError] |];
        simpl in Hin; destruct Hin as [[=] | []].
  - split.
    + intros Hin. exfalso.
      destruct (ICryptoPlugin_decrypt plugin args')
        as [[[status hBytesWritten] hDetailedError] |];
        simpl in Hin; destruct Hin as [[=] | []].
    + intros Hin. exists plugin. split; [done |]. split; [done |].
      assert (args' = args) as ->.
      { destruct (ICryptoPlugin_decrypt plugin args')
          as [[[status hBytesWritten] hDetailedError] |];
          simpl in Hin; destruct Hin as [[= ->] | []]; done. }
      intros Htyped.
      pose proof (decrypt_return_1_0 this errorDetailMsg _ Hbits Htyped)
        as Hreturn.
      destruct (ICryptoPlugin_decrypt plugin args)
        as [[[status hBytesWritten] hDetailedError] |];
        simpl in *; by rewrite Hreturn.
  - split; intros [].
Qed.

End Translation.

(** *** Exact buffer validation *)

(** X13.  On a reachable object [checkSharedBuffer] is exact for a buffer
    whose offset is a [size_t] value: it returns OK when the buffer lies
    within a registered heap and UNKNOWN_ERROR when it does not. *)
Theorem checkSharedBuffer_exact this buffer :
  0 < size_bits <= mem_bits ->
  reachable this ->
  size_t_offset buffer ->
  (checkSharedBuffer this buffer = OK <-> within_registered_heap this buffer)
  /\ (~ within_registered_heap this buffer ->
      checkSharedBuffer this buffer = UNKNOWN_ERROR).
Proof.
  intros Hbits Hreachable Htyped.
  assert (Hiff : checkSharedBuffer this buffer = OK <->
                 within_registered_heap this buffer).
  { split; [by apply checkSharedBuffer_OK |].
    destruct Htyped as [[Hoffset _] Hsize].
    by apply within_registered_heap_accepted. }
  split; [done |]. intros Hnot.
  destruct (checkSharedBuffer_status this buffer) as [Hok | Herr]; [| done].
  by apply Hiff in Hok.
Qed.

(** X14.  Registering and checking compose: after a successful
    [setHeapBase] on a reachable object, a buffer whose bufferId is the
    returned sequence number (as [uint32_t]) is accepted by
    [checkSharedBuffer] exactly when its offset plus size do not exceed
    the registered heap size. *)
Theorem registered_heap_accepts_its_buffers
    this memory seqNum registered calls buffer :
  0 < size_bits <= mem_bits ->
  reachable this ->
  setHeapBase this (Some memory) = Returns (seqNum, registered) calls ->
  seqNum <> -1 ->
  size_t_offset buffer ->
  V1_0.bufferId buffer = wrap_unsigned 32 seqNum ->
  (checkSharedBuffer registered buffer = OK <->
   V1_0.offset buffer + V1_0.size buffer
   <= wrap_unsigned size_bits (HidlMemory.size memory)).
Proof.
  intros Hbits Hreachable Hset Hsuccess Htyped Hid.
  destruct (reachable_heap_numbering this Hreachable) as [Hint _].
  apply setHeapBase_effect in Hset
    as [(-> & _) | (memory' & plugin & [= <-] & _ & _ & Hnonneg & Hseq & -> & _)];
    [done |].
  assert (Hlookup :
            mHeapSizes
              (set_mHeapSizes
                 (<[seqNum := wrap_unsigned size_bits
                                (HidlMemory.size memory)]>
                    (mHeapSizes this))
                 (set_mHeapSeqNum (wrap_signed 32 (seqNum + 1)) this))
            !! wrap_signed 32 (V1_0.bufferId buffer)
            = Some (wrap_unsigned size_bits (HidlMemory.size memory))).
  { simpl. rewrite Hid, bufferId_of_seqNum.
    - apply lookup_insert_eq.
    - unfold is_int32 in Hint. lia. }
  split.
  - intros Hcheck.
    destruct (checkSharedBuffer_OK _ buffer Hbits Htyped Hcheck)
      as (heapSize & Hfound & Hbound).
    rewrite Hlookup in Hfound. by simplify_eq.
  - intros Hbound. destruct Htyped as [[Hoffset _] Hsize].
    eapply checkSharedBuffer_accepts; try done.
    unfold wrap_unsigned, SIZE_MAX.
    pose proof (Z.mod_pos_bound (HidlMemory.size memory) (2 ^ size_bits)
                  ltac:(apply Z.pow_pos_nonneg; lia)).
    lia.
Qed.

(** *** An object without factories *)

Lemma without_factories_step services op result this' calls :
  makeCryptoFactories services = [] ->
  step (CryptoHalHidl_new services) op = Returns (result, this') calls ->
  this' = CryptoHalHidl_new services
  /\ heap_seqNums [(op, result)] = [].
Proof.
  intros Hempty. unfold CryptoHalHidl_new. rewrite Hempty. simpl.
  assert (Hgate : (ERROR_UNSUPPORTED =? OK) = false)
    by (apply Z.eqb_neq; lia).
  intros Hstep. destruct op; simpl in Hstep; exec_unfold;
    try (by simplify_eq).
  - unfold createPlugin in Hstep. exec_unfold.
    destruct (ERROR_UNSUPPORTED =? NO_INIT); by simplify_eq.
  - unfold destroyPlugin in Hstep. exec_unfold.
    rewrite Hgate in Hstep. simpl in Hstep. by simplify_eq.
  - unfold requiresSecureDecoderComponent in Hstep. exec_unfold.
    rewrite Hgate in Hstep. simpl in Hstep. by simplify_eq.
  - unfold setHeapBase in Hstep. exec_unfold.
    destruct heap; [rewrite Hgate in Hstep |]; simpl in Hstep;
      by simplify_eq.
  - unfold clearHeapBase in Hstep. simpl in Hstep.
    rewrite lookup_empty in Hstep. exec_unfold. by simplify_eq.
  - unfold decrypt in Hstep. exec_unfold. rewrite Hgate in Hstep.
    simpl in Hstep. by simplify_eq.
  - unfold notifyResolution in Hstep. exec_unfold.
    rewrite Hgate in Hstep. simpl in Hstep. by simplify_eq.
  - unfold setMediaDrmSession in Hstep. exec_unfold.
    rewrite Hgate in Hstep. simpl in Hstep. by simplify_eq.
  - by repeat case_match; simplify_eq.
Qed.

(** X15.  An object constructed when no factory was found never changes:
    after any sequence of calls it is the object the constructor built,
    no [setHeapBase] call has returned a sequence number,
    [isCryptoSchemeSupported] answers false, [createPlugin] returns
    ERROR_UNSUPPORTED, [setHeapBase] returns -1 and [clearHeapBase] does
    nothing, all without a remote call. *)
Theorem no_factories_is_inert services history this :
  makeCryptoFactories services = [] ->
  execution (CryptoHalHidl_new services) history this ->
  this = CryptoHalHidl_new services
  /\ heap_seqNums history = []
  /\ (forall uuid, isCryptoSchemeSupported this uuid = Returns false [])
  /\ (forall uuid data,
        createPlugin this uuid data = Returns (ERROR_UNSUPPORTED, this) [])
  /\ (forall heap, setHeapBase this heap = Returns (-1, this) [])
  /\ (forall seqNum, clearHeapBase this seqNum = Returns this []).
Proof.
  intros Hempty Hexecution.
  assert (Hfixed : this = CryptoHalHidl_new services
                   /\ heap_seqNums history = []).
  { remember (CryptoHalHidl_new services) as new eqn:Hnew.
    induction Hexecution
      as [this | this op result calls this' history this'' Hstep _ IH];
      [done |].
    subst this.
    destruct (without_factories_step _ _ _ _ _ Hempty Hstep)
      as [-> Hnone].
    destruct (IH eq_refl) as [-> Hrest]. split; [done |].
    by rewrite heap_seqNums_cons, Hnone, Hrest. }
  destruct Hfixed as [-> Hnone]. split_and!; try done.
  - intros uuid. unfold isCryptoSchemeSupported, CryptoHalHidl_new.
    by rewrite Hempty.
  - intros uuid data. unfold createPlugin, CryptoHalHidl_new.
    rewrite Hempty. exec_unfold.
    by destruct (ERROR_UNSUPPORTED =? NO_INIT).
  - intros heap. unfold setHeapBase, CryptoHalHidl_new.
    rewrite Hempty. simpl.
    assert (Hgate : (ERROR_UNSUPPORTED =? OK) = false)
      by (apply Z.eqb_neq; lia).
    rewrite Hgate. by destruct heap.
Qed.

(** *** The lifecycle *)

Section FailureCodes.

Hypothesis ERROR_UNSUPPORTED_not_NO_INIT : ERROR_UNSUPPORTED <> NO_INIT.
Hypothesis DEAD_OBJECT_not_NO_INIT : DEAD_OBJECT <> NO_INIT.

(** The moves of [mInitCheck] in one call. *)
Lemma step_lifecycle this op result this' calls :
  step this op = Returns (result, this') calls ->
  match op with
  | Op_createPlugin _ _ =>
      mInitCheck this' = mInitCheck this
      \/ mInitCheck this' = DEAD_OBJECT
      \/ (mInitCheck this = NO_INIT
          /\ ((mInitCheck this' = OK /\ mPlugin this' <> None)
              \/ (mInitCheck this' = ERROR_UNSUPPORTED
                  /\ mPlugin this' = None)))
  | Op_destroyPlugin =>
      (mInitCheck this = OK
       /\ mInitCheck this' = NO_INIT
       /\ mPlugin this' = None
       /\ mPluginV1_2 this' = None)
      \/ (mInitCheck this <> OK /\ this' = this)
  | _ => mInitCheck this' = mInitCheck this
  end.
Proof.
  intros Hstep.
  destruct (step_fields _ _ _ _ _ Hstep) as (_ & _ & Hplugin).
  apply step_effect in Hstep.
  destruct op; simpl in Hplugin;
    try (by destruct (Hplugin eq_refl) as (Hinit & _)).
  - destruct Hstep as [status Hcreate].
    destruct (createPlugin_effect this uuid data)
      as (looped & calls' & Hloop & Hresult).
    destruct (createPlugin_from_effect (mFactories this) 0%nat this uuid
                data)
      as (looped' & calls'' & Hloop' & _ & _ & _ & Hinit & _).
    rewrite Hloop in Hloop'. rewrite Hresult in Hcreate. simplify_eq.
    destruct (Z.eqb_spec (mInitCheck looped') NO_INIT) as [Hno | Hno];
      simpl.
    + destruct Hinit as [Hsame | Hdead]; [| congruence].
      right. right. split; [congruence |].
      destruct (mPlugin looped'); [by left | by right].
    + destruct Hinit as [-> | ->]; [by left | by right; left].
  - destruct Hstep as [status Hdestroy].
    unfold destroyPlugin in Hdestroy. exec_unfold.
    destruct (Z.eqb_spec (mInitCheck this) OK) as [Hok | Hok];
      simpl in Hdestroy; simplify_eq; [by left | by right].
Qed.

(** X16.  The lifecycle moves: [createPlugin] returns the new
    [mInitCheck]; from NO_INIT it goes to OK with a plugin bound, to
    ERROR_UNSUPPORTED with none, or to DEAD_OBJECT (a factory transaction
    failed); from any other state it stays where it is or goes to
    DEAD_OBJECT.  [destroyPlugin] takes OK to NO_INIT with both plugin
    pointers null and does nothing in any other state; no other call
    changes [mInitCheck]. *)
Theorem lifecycle_moves this op result this' calls :
  step this op = Returns (result, this') calls ->
  match op with
  | Op_createPlugin _ _ =>
      result = Result_status (mInitCheck this')
      /\ (mInitCheck this' = DEAD_OBJECT
          \/ (mInitCheck this = NO_INIT
              /\ ((mInitCheck this' = OK /\ mPlugin this' <> None)
                  \/ (mInitCheck this' = ERROR_UNSUPPORTED
                      /\ mPlugin this' = None)))
          \/ (mInitCheck this <> NO_INIT
              /\ mInitCheck this' = mInitCheck this))
  | Op_destroyPlugin =>
      (mInitCheck this = OK
       /\ result = Result_status OK
       /\ mInitCheck this' = NO_INIT
       /\ mPlugin this' = None
       /\ mPluginV1_2 this' = None)
      \/ (mInitCheck this <> OK
          /\ result = Result_status (mInitCheck this)
          /\ this' = this)
  | _ => mInitCheck this' = mInitCheck this
  end.
Proof.
  intros Hstep. pose proof (step_lifecycle _ _ _ _ _ Hstep) as Hmoves.
  destruct op; try done.
  - simpl in Hstep. exec_unfold.
    destruct (createPlugin_effect this uuid data)
      as (looped & asked & Hloop & Hresult).
    destruct (createPlugin_from_effect (mFactories this) 0%nat this uuid
                data)
      as (looped1 & asked1 & Hloop1 & _ & _ & _ & Hinit & _).
    rewrite Hloop in Hloop1. injection Hloop1 as <- <-.
    rewrite Hresult in Hstep. simpl in Hstep.
    injection Hstep as <- <- <-. split; [done |].
    destruct (Z.eqb_spec (mInitCheck looped) NO_INIT) as [Hno | Hno];
      simpl.
    + destruct Hinit as [Hsame | Hdead]; [| congruence].
      right. left. split; [congruence |].
      destruct (mPlugin looped); [by left | by right].
    + destruct Hinit as [Hsame | Hdead]; [| by left].
      right. right. split; congruence.
  - simpl in Hstep. unfold destroyPlugin in Hstep. exec_unfold.
    destruct (Z.eqb_spec (mInitCheck this) OK) as [Hok | Hok];
      simpl in Hstep; simplify_eq; [left | right]; by split_and!.
Qed.

(** X17.  The failure states are final: after any sequence of calls an
    object in DEAD_OBJECT is still in DEAD_OBJECT, and an object in
    ERROR_UNSUPPORTED is in ERROR_UNSUPPORTED or DEAD_OBJECT; neither
    reaches OK or NO_INIT again. *)
Theorem failure_states_are_final this history this' :
  execution this history this' ->
  (mInitCheck this = DEAD_OBJECT -> mInitCheck this' = DEAD_OBJECT)
  /\ (mInitCheck this = ERROR_UNSUPPORTED ->
      mInitCheck this' = ERROR_UNSUPPORTED
      \/ mInitCheck this' = DEAD_OBJECT)
  /\ (mInitCheck this = DEAD_OBJECT \/ mInitCheck this = ERROR_UNSUPPORTED ->
      mInitCheck this' <> OK /\ mInitCheck this' <> NO_INIT).
Proof.
  intros Hexecution.
  assert (Hfailed : mInitCheck this = DEAD_OBJECT
                    \/ mInitCheck this = ERROR_UNSUPPORTED ->
                    (mInitCheck this = DEAD_OBJECT ->
                     mInitCheck this' = DEAD_OBJECT)
                    /\ (mInitCheck this' = DEAD_OBJECT
                        \/ mInitCheck this' = ERROR_UNSUPPORTED)).
  { induction Hexecution
      as [this | this op result calls this' history this'' Hstep _ IH];
      intros Hstate; [tauto |].
    pose proof (step_lifecycle _ _ _ _ _ Hstep) as Hmoves.
    assert (Hnext : (mInitCheck this = DEAD_OBJECT ->
                     mInitCheck this' = DEAD_OBJECT)
                    /\ (mInitCheck this' = DEAD_OBJECT
                        \/ mInitCheck this' = ERROR_UNSUPPORTED)).
    { destruct op;
        try (rewrite Hmoves; tauto).
      - destruct Hmoves as [-> | [-> | [Hno _]]];
          [tauto | tauto |].
        destruct Hstate as [Hdead | Hunsupported]; congruence.
      - destruct Hmoves as [(Hok & _) | (_ & ->)]; [| tauto].
        destruct Hstate as [Hdead | Hunsupported]; lia. }
    destruct Hnext as [Hdead Hnext].
    destruct (IH Hnext) as [IHdead IHnext]. tauto. }
  split_and!.
  - intros Hdead. apply Hfailed; [by left | done].
  - intros Hunsupported. destruct Hfailed as [_ Hfailed]; [by right |].
    tauto.
  - intros Hstate. destruct (Hfailed Hstate) as [_ [-> | ->]];
      split; first [done | lia].
Qed.

Lemma step_unbound_v1_2_before_init this op result this' calls :
  unbound_v1_2_before_init this ->
  step this op = Returns (result, this') calls ->
  unbound_v1_2_before_init this'.
Proof.
  unfold unbound_v1_2_before_init. intros Hunbound Hstep.
  pose proof (step_lifecycle _ _ _ _ _ Hstep) as Hmoves.
  destruct (step_fields _ _ _ _ _ Hstep) as (_ & _ & Hplugin).
  destruct op; simpl in Hplugin;
    try (destruct (Hplugin eq_refl) as (Hi & _ & Hv); by rewrite Hi, Hv).
  - intros Hno.
    destruct Hmoves as [Hsame | [Hdead | (_ & [[Hok _] | [Hun _]])]];
      [| congruence | lia | congruence].
    apply step_effect in Hstep as [status Hcreate].
    destruct (createPlugin_effect this uuid data)
      as (looped & calls' & Hloop & Hresult).
    rewrite Hresult in Hcreate. simplify_eq.
    destruct (Z.eqb_spec (mInitCheck looped) NO_INIT) as [Hlooped | Hlooped];
      simpl in *; [destruct (mPlugin looped); lia || congruence |].
    congruence.
  - destruct Hmoves as [(_ & _ & _ & Hv) | (_ & ->)]; [done | done].
Qed.

Lemma reachable_unbound_v1_2_before_init this :
  reachable this -> unbound_v1_2_before_init this.
Proof.
  intros (services & history & Hexecution).
  eapply (execution_invariant unbound_v1_2_before_init); [| done |].
  - intros; by eapply step_unbound_v1_2_before_init.
  - by intros _.
Qed.

(** X18.  A scheme that [isCryptoSchemeSupported] reports as unsupported
    is rejected: on a reachable object [createPlugin] then asks the
    factories the same questions and nothing else, leaves both plugin
    pointers as they are, and returns ERROR_UNSUPPORTED from the NO_INIT
    state and the unchanged [mInitCheck] from any other. *)
Theorem unsupported_scheme_is_rejected this uuid data calls :
  reachable this ->
  isCryptoSchemeSupported this uuid = Returns false calls ->
  exists this',
    createPlugin this uuid data
    = Returns
        (if mInitCheck this =? NO_INIT then ERROR_UNSUPPORTED
         else mInitCheck this, this') calls
    /\ List.filter is_createPlugin_call calls = []
    /\ mPlugin this' = mPlugin this
    /\ mPluginV1_2 this' = mPluginV1_2 this
    /\ (mInitCheck this <> NO_INIT -> this' = this).
Proof.
  intros Hreachable Hasked.
  pose proof (reachable_unbound_before_init
                (fun Heq => ERROR_UNSUPPORTED_not_NO_INIT (eq_sym Heq))
                this Hreachable) as Hunbound.
  destruct (createPlugin_from_unsupported (mFactories this) 0%nat this uuid
              data calls Hasked) as [Hloop Hnone].
  unfold createPlugin. rewrite Hloop. exec_unfold.
  rewrite app_nil_r.
  destruct (Z.eqb_spec (mInitCheck this) NO_INIT) as [Hno | Hno].
  - rewrite (Hunbound Hno).
    exists (set_mInitCheck ERROR_UNSUPPORTED this).
    specialize (Hunbound Hno). destruct this; simpl in *. by split_and!.
  - exists this. by split_and!.
Qed.

(** X19.  Creating and destroying round-trip: when [createPlugin] on a
    reachable object in the NO_INIT state returns OK, the object is in the
    OK state with a plugin bound and [mPluginV1_2] its 1.2 view, and
    [destroyPlugin] then returns OK without a remote call and gives back
    exactly the object from before the [createPlugin]. *)
Theorem createPlugin_destroyPlugin this uuid data bound calls :
  reachable this ->
  mInitCheck this = NO_INIT ->
  createPlugin this uuid data = Returns (OK, bound) calls ->
  mInitCheck bound = OK
  /\ (exists plugin,
        mPlugin bound = Some plugin
        /\ mPluginV1_2 bound = ICryptoPlugin_castFrom_V1_2 plugin)
  /\ destroyPlugin bound = Returns (OK, this) [].
Proof.
  intros Hreachable Hno Hcreate.
  pose proof (reachable_unbound_before_init
                (fun Heq => ERROR_UNSUPPORTED_not_NO_INIT (eq_sym Heq))
                this Hreachable Hno) as Hplugin.
  pose proof (reachable_unbound_v1_2_before_init this Hreachable Hno)
    as Hv1_2.
  pose proof (reachable_v1_2_of_bound this Hreachable) as Hview.
  destruct (createPlugin_effect this uuid data)
    as (looped & asked & Hloop & Hresult).
  destruct (createPlugin_from_effect (mFactories this) 0%nat this uuid data)
    as (looped1 & asked1 & Hloop1 & Hfactories & Hsizes & Hcounter & Hinit
        & _).
  destruct (createPlugin_from_plugin (mFactories this) 0%nat this uuid data)
    as (looped2 & asked2 & Hloop2 & _ & Hkept & _).
  rewrite Hloop in Hloop1, Hloop2.
  injection Hloop1 as <- <-. injection Hloop2 as <- <-.
  specialize (Hkept Hview). rewrite Hresult in Hcreate.
  destruct (Z.eqb_spec (mInitCheck looped) NO_INIT) as [Hlooped | Hlooped].
  - destruct (mPlugin looped) as [plugin |] eqn:Hbound; simpl in Hcreate;
      [injection Hcreate as <- | injection Hcreate as Hstatus _; lia].
    split_and!; [done | |].
    + exists plugin. specialize (Hkept plugin Hbound).
      destruct looped; simpl in *. by split.
    + unfold destroyPlugin. destruct this, looped; simpl in *.
      rewrite Z.eqb_refl. simpl. by simplify_eq.
  - injection Hcreate as Hstatus _.
    destruct Hinit as [Hsame | Hdead]; [congruence | lia].
Qed.

End FailureCodes.

End StatusCodes.

End Wrapper.

(** ** An instance: the Android headers on a 64-bit target

    [size_t] and the HIDL memory quantities are 64 bits wide; the status
    codes have the values of utils/Errors.h and MediaErrors.h.  The HAL
    [Status] enums are kept as their underlying integers, with OK = 0. *)

Module Android.

Definition size_bits : Z := 64.
Definition mem_bits : Z := 64.
Definition OK : Z := 0.
Definition NO_INIT : Z := -19.
Definition UNKNOWN_ERROR : Z := -2147483648.
Definition DEAD_OBJECT : Z := -32.
Definition ERROR_UNSUPPORTED : Z := -1010.

Definition Status : Type := Z.
Definition Status_OK : Status := 0.
Definition ERROR_DRM_CANNOT_HANDLE : Status := 4.

(** A translation of HAL statuses that maps OK to OK and any other status
    to one negative code. *)
Definition toStatusT (status : Status) : Z :=
  if decide (status = Status_OK) then OK else -2000.

Definition LogMessage : Type := string.

Definition Plugin : Type := ICryptoPlugin Status Status.
Definition PluginV1_2 : Type := ICryptoPlugin_V1_2 Status.
Definition Factory : Type := ICryptoFactory Status Status.
Definition Object : Type := CryptoHalHidl Status Status.

Definition GetLogMessages (plugin : option Plugin) (logs : list LogMessage)
  : Exec (Z * list LogMessage) :=
  Returns (OK, logs) [].

Definition CryptoHalHidl_new : HalServices Status Status -> Object :=
  CryptoHalHidl_new NO_INIT ERROR_UNSUPPORTED Status Status.

Definition checkSharedBuffer : Object -> V1_0.SharedBuffer -> Z :=
  checkSharedBuffer size_bits mem_bits OK UNKNOWN_ERROR Status Status.

Definition decrypt :=
  @decrypt size_bits mem_bits OK UNKNOWN_ERROR DEAD_OBJECT Status Status _ _
    Status_OK Status_OK toStatusT toStatusT.

Definition createPlugin :=
  @createPlugin OK NO_INIT DEAD_OBJECT ERROR_UNSUPPORTED Status Status _
    Status_OK.

Definition setHeapBase : Object -> option HidlMemory.t -> Exec (Z * Object) :=
  setHeapBase size_bits OK Status Status.

Definition step :=
  @step size_bits mem_bits OK NO_INIT UNKNOWN_ERROR DEAD_OBJECT
    ERROR_UNSUPPORTED Status Status _ _ Status_OK Status_OK toStatusT
    toStatusT LogMessage GetLogMessages.

Definition execution :=
  @execution size_bits mem_bits OK NO_INIT UNKNOWN_ERROR DEAD_OBJECT
    ERROR_UNSUPPORTED Status Status _ _ Status_OK Status_OK toStatusT
    toStatusT LogMessage GetLogMessages.

Definition reachable :=
  @reachable size_bits mem_bits OK NO_INIT UNKNOWN_ERROR DEAD_OBJECT
    ERROR_UNSUPPORTED Status Status _ _ Status_OK Status_OK toStatusT
    toStatusT LogMessage GetLogMessages.

Definition decrypt_validated :=
  @decrypt_validated size_bits mem_bits OK UNKNOWN_ERROR Status Status.

(** *** Sample remote objects *)

(** A 1.2 plugin that reports 16 bytes written. *)
Definition plugin_1_2 : PluginV1_2 :=
  {| ICryptoPlugin_decrypt_1_2 :=
       fun _ => Return_isOk (Status_OK, 16, "done"%string) |}.

(** A plugin that implements only the 1.0 interface ([castFrom] gives
    null when [v1_2] is [None]). *)
Definition plugin_1_0 (v1_2 : option PluginV1_2) : Plugin :=
  {| ICryptoPlugin_requiresSecureDecoderComponent := fun _ => Return_isOk true;
     ICryptoPlugin_setSharedBufferBase := fun _ _ => Return_isOk tt;
     ICryptoPlugin_decrypt :=
       fun _ => Return_isOk (Status_OK, 16, "done"%string);
     ICryptoPlugin_notifyResolution := fun _ _ => Return_isOk tt;
     ICryptoPlugin_setMediaDrmSession := fun _ => Return_isOk Status_OK;
     ICryptoPlugin_castFrom_V1_2 := v1_2 |}.

(** Two 16-byte scheme identifiers. *)
Definition uuid_a : bytes := repeat Byte.x0a 16.
Definition uuid_b : bytes := repeat Byte.x0b 16.

(** A factory that supports every scheme whose identifier starts with
    0x0a or 0x0b; it creates a 1.0 plugin for the first kind, and reports
    ERROR_DRM_CANNOT_HANDLE, with no plugin, for the second. *)
Definition factory : Factory :=
  {| ICryptoFactory_isCryptoSchemeSupported :=
       fun uuid =>
         match uuid with
         | Byte.x0a :: _ => true
         | Byte.x0b :: _ => true
         | _ => false
         end;
     ICryptoFactory_createPlugin :=
       fun uuid _ =>
         match uuid with
         | Byte.x0a :: _ => Return_isOk (Status_OK, Some (plugin_1_0 None))
         | _ => Return_isOk (ERROR_DRM_CANNOT_HANDLE, None)
         end |}.

(** One registered 1.0 factory instance. *)
Definition services : HalServices Status Status :=
  {| defaultServiceManager1_2 := true;
     listManifestByInterface_V1_0 := Return_isOk ["default"%string];
     listManifestByInterface_V1_1 := Return_isOk [];
     V1_0_getService := fun _ => Some factory;
     V1_1_getService := fun _ => None;
     getService_default := None |}.

(** No service manager and no passthrough service. *)
Definition no_services : HalServices Status Status :=
  {| defaultServiceManager1_2 := false;
     listManifestByInterface_V1_0 := Return_failed;
     listManifestByInterface_V1_1 := Return_failed;
     V1_0_getService := fun _ => None;
     V1_1_getService := fun _ => None;
     getService_default := None |}.

Definition heap : HidlMemory.t := {| HidlMemory.size := 4096 |}.

Definition source : V1_0.SharedBuffer :=
  {| V1_0.bufferId := 0; V1_0.offset := 0; V1_0.size := 1024 |}.

Definition secure_destination : V1_0.DestinationBuffer :=
  {| V1_0.type := V1_0.NATIVE_HANDLE;
     V1_0.nonsecureMemory :=
       {| V1_0.bufferId := 0; V1_0.offset := 0; V1_0.size := 0 |};
     V1_0.secureMemory := 7 |}.

Definition pattern : CryptoPlugin.Pattern :=
  {| CryptoPlugin.mEncryptBlocks := 1; CryptoPlugin.mSkipBlocks := 9 |}.

Definition subSamples : list CryptoPlugin.SubSample :=
  [ {| CryptoPlugin.mNumBytesOfClearData := 24;
       CryptoPlugin.mNumBytesOfEncryptedData := 1000 |} ].

Definition run :=
  @run size_bits mem_bits OK NO_INIT UNKNOWN_ERROR DEAD_OBJECT
    ERROR_UNSUPPORTED Status Status _ _ Status_OK Status_OK toStatusT
    toStatusT LogMessage GetLogMessages.

(** The object after the calls of [ops] on a new object. *)
Definition object_after (ops : list (Op LogMessage)) : Object :=
  match run (CryptoHalHidl_new services) ops with
  | Some (_, this) => this
  | None => CryptoHalHidl_new services
  end.

(** The results of the calls of [ops] on a new object. *)
Definition history_of (ops : list (Op LogMessage))
  : list (Op LogMessage * Result LogMessage) :=
  match run (CryptoHalHidl_new services) ops with
  | Some (history, _) => history
  | None => []
  end.

(** A plugin is created and a heap registered. *)
Definition ops_ready : list (Op LogMessage) :=
  [Op_createPlugin LogMessage uuid_a []; Op_setHeapBase LogMessage (Some heap)].

Definition ready : Object := object_after ops_ready.

(** Then a second [createPlugin] finds a supporting factory that creates
    no plugin. *)
Definition ops_unbound : list (Op LogMessage) :=
  ops_ready ++ [Op_createPlugin LogMessage uuid_b []].

Definition unbound : Object := object_after ops_unbound.

(** A destination whose type is neither SHARED_MEMORY nor NATIVE_HANDLE. *)
Definition untyped_destination : V1_0.DestinationBuffer :=
  {| V1_0.type := V1_0.BufferType_unlisted;
     V1_0.nonsecureMemory :=
       {| V1_0.bufferId := 0; V1_0.offset := 0; V1_0.size := 0 |};
     V1_0.secureMemory := 0 |}.

(** A source buffer whose offset plus size wraps around 2^64 to 16. *)
Definition wrapping_source : V1_0.SharedBuffer :=
  {| V1_0.bufferId := 0;
     V1_0.offset := 18446744073709551600;
     V1_0.size := 32 |}.

(** A scheme identifier that the sample factory does not support. *)
Definition uuid_c : bytes := repeat Byte.x0c 16.

(** Two heaps are registered, the first one cleared in between. *)
Definition ops_two_heaps : list (Op LogMessage) :=
  [Op_createPlugin LogMessage uuid_a [];
   Op_setHeapBase LogMessage (Some heap);
   Op_clearHeapBase LogMessage 0;
   Op_setHeapBase LogMessage (Some heap)].

(** The arguments that [decrypt] sends for the sample parameters. *)
Definition sample_args : DecryptArgs :=
  {| arg_secure := true;
     arg_keyId := toHidlArray16 None;
     arg_iv := toHidlArray16 None;
     arg_mode := V1_0.AES_CTR;
     arg_pattern := {| V1_0.encryptBlocks := 1; V1_0.skipBlocks := 9 |};
     arg_subSamples :=
       [ {| V1_0.numBytesOfClearData := 24;
            V1_0.numBytesOfEncryptedData := 1000 |} ];
     arg_source := source;
     arg_offset := 0;
     arg_destination := secure_destination |}.

(** Only a plugin is created. *)
Definition ops_bound : list (Op LogMessage) :=
  [Op_createPlugin LogMessage uuid_a []].

Definition bound : Object := object_after ops_bound.

(** A second heap is registered on the object [ready]. *)
Definition ops_second_heap : list (Op LogMessage) :=
  ops_ready ++ [Op_setHeapBase LogMessage (Some heap)].

Definition second_heap : Object := object_after ops_second_heap.

(** Calls on an object constructed without factories. *)
Definition ops_without : list (Op LogMessage) :=
  [Op_createPlugin LogMessage uuid_a [];
   Op_setHeapBase LogMessage (Some heap);
   Op_destroyPlugin LogMessage].

Definition history_without : list (Op LogMessage * Result LogMessage) :=
  match run (CryptoHalHidl_new no_services) ops_without with
  | Some (history, _) => history
  | None => []
  end.

Definition object_without : Object :=
  match run (CryptoHalHidl_new no_services) ops_without with
  | Some (_, this) => this
  | None => CryptoHalHidl_new no_services
  end.

(** The [decrypt] call of the sample parameters. *)
Definition op_decrypt : Op LogMessage :=
  Op_decrypt LogMessage None None CryptoPlugin.kMode_AES_CTR pattern source 0
    subSamples secure_destination None.

(** *** The header facts, for this instance *)

Lemma OK_value : OK = 0.
Proof. reflexivity. Qed.

Lemma error_values :
  NO_INIT < 0 /\ UNKNOWN_ERROR < 0 /\ DEAD_OBJECT < 0
  /\ ERROR_UNSUPPORTED < 0.
Proof. unfold NO_INIT, UNKNOWN_ERROR, DEAD_OBJECT, ERROR_UNSUPPORTED. lia. Qed.

Lemma NO_INIT_value : NO_INIT <> ERROR_UNSUPPORTED.
Proof. discriminate. Qed.

Lemma toStatusT_value : toStatusT Status_OK = OK.
Proof. reflexivity. Qed.

Lemma object_after_reachable ops :
  run (CryptoHalHidl_new services) ops <> None ->
  reachable (object_after ops).
Proof.
  unfold object_after. intros Hrun.
  destruct (run (CryptoHalHidl_new services) ops) as [[history this] |]
    eqn:Hops; [| done].
  exists services, history. by apply run_execution in Hops.
Qed.

Lemma ready_reachable : reachable ready.
Proof. by apply object_after_reachable. Qed.

Lemma unbound_reachable : reachable unbound.
Proof. by apply object_after_reachable. Qed.

(** *** The remote decrypt call when no plugin is bound *)

(** C2, at the failing input.  After [createPlugin] for scheme a,
    [setHeapBase], and a [createPlugin] for scheme b whose factory reports
    support and then creates no plugin, the object is in the OK state with
    both plugin pointers null; a [decrypt] call then passes the mode and
    buffer validation and issues no remote call: it dereferences the null
    [mPlugin]. *)
Theorem decrypt_without_plugin_issues_no_call :
  reachable unbound
  /\ decrypt_validated unbound CryptoPlugin.kMode_AES_CTR source
       secure_destination
  /\ mPluginV1_2 Status Status unbound = None
  /\ mPlugin Status Status unbound = None
  /\ decrypt unbound None None CryptoPlugin.kMode_AES_CTR pattern source 0
       subSamples secure_destination None
     = Aborts [].
Proof.
  split; [exact unbound_reachable |].
  split; [| by split_and!].
  unfold decrypt_validated. red.
  split_and!; [done | done | by left | done].
Qed.

(** *** Inputs at which the claims as first stated fail *)

(** C4 as first stated fails: an object constructed when no factory is
    found is in the state ERROR_UNSUPPORTED, which is neither NO_INIT nor
    OK. *)
Lemma mInitCheck_third_value :
  reachable (CryptoHalHidl_new no_services)
  /\ mInitCheck Status Status (CryptoHalHidl_new no_services)
     = ERROR_UNSUPPORTED
  /\ ERROR_UNSUPPORTED <> NO_INIT
  /\ ERROR_UNSUPPORTED <> OK.
Proof.
  split_and!; try done.
  exists no_services, []. constructor.
Qed.

(** C6 as first stated fails: on a new object, still in the NO_INIT state,
    [decrypt] with a mode outside the table returns NO_INIT, not
    UNKNOWN_ERROR. *)
Lemma unlisted_mode_before_init :
  reachable (CryptoHalHidl_new services)
  /\ decrypt (CryptoHalHidl_new services) None None
       CryptoPlugin.kMode_unlisted pattern source 0 subSamples
       secure_destination None
     = Returns (NO_INIT, None, CryptoHalHidl_new services) []
  /\ NO_INIT <> UNKNOWN_ERROR.
Proof.
  split_and!; try done.
  exists services, []. constructor.
Qed.

(** C10 as first stated fails: on a new object, still in the NO_INIT
    state, [decrypt] with a destination that is neither SHARED_MEMORY nor
    NATIVE_HANDLE returns NO_INIT, not UNKNOWN_ERROR. *)
Lemma untyped_destination_before_init :
  reachable (CryptoHalHidl_new services)
  /\ decrypt (CryptoHalHidl_new services) None None
       CryptoPlugin.kMode_AES_CTR pattern source 0 subSamples
       untyped_destination None
     = Returns (NO_INIT, None, CryptoHalHidl_new services) []
  /\ NO_INIT <> UNKNOWN_ERROR.
Proof.
  split_and!; try done.
  exists services, []. constructor.
Qed.

(** *** The theorems at concrete inputs *)

Lemma decrypt_rejects_buffer_outside_heap_witness :
  ~ within_registered_heap Status Status ready wrapping_source
  /\ exists status,
       decrypt ready None None CryptoPlugin.kMode_AES_CTR pattern
         wrapping_source 0 subSamples secure_destination None
       = Returns (status, None, ready) []
       /\ status < 0.
Proof.
  assert (Houtside : ~ within_registered_heap Status Status ready
                        wrapping_source).
  { intros (heapSize & Hlookup & Hbound).
    vm_compute in Hlookup. simplify_eq. vm_compute in Hbound.
    by apply Hbound. }
  split; [exact Houtside |].
  apply (decrypt_rejects_buffer_outside_heap size_bits mem_bits OK NO_INIT
           UNKNOWN_ERROR DEAD_OBJECT ERROR_UNSUPPORTED Status Status
           Status_OK Status_OK toStatusT toStatusT OK_value
           error_values ready).
  - unfold size_bits, mem_bits. lia.
  - right. left. reflexivity.
  - left. split; [| exact Houtside].
    vm_compute. repeat split; discriminate.
Defined.

Lemma createPlugin_selects_supporting_factory_witness :
  length uuid_c = 16%nat
  /\ exists calls,
       createPlugin (CryptoHalHidl_new services) uuid_c []
       = Returns
           (ERROR_UNSUPPORTED,
            set_mInitCheck Status Status ERROR_UNSUPPORTED
              (CryptoHalHidl_new services))
           calls
       /\ mPlugin Status Status
            (set_mInitCheck Status Status ERROR_UNSUPPORTED
               (CryptoHalHidl_new services))
          = None.
Proof.
  split; [reflexivity |].
  apply (createPlugin_selects_supporting_factory size_bits mem_bits OK
           NO_INIT UNKNOWN_ERROR DEAD_OBJECT ERROR_UNSUPPORTED Status Status
           Status_OK Status_OK toStatusT toStatusT LogMessage GetLogMessages
           OK_value error_values NO_INIT_value
           (CryptoHalHidl_new services) uuid_c [] eq_refl).
  - exists services, []. constructor.
  - reflexivity.
  - repeat constructor.
Defined.

Lemma reachable_mInitCheck_assigned_witness :
  reachable ready
  /\ mInitCheck_assigned OK NO_INIT DEAD_OBJECT ERROR_UNSUPPORTED Status
       Status ready.
Proof.
  split; [exact ready_reachable |].
  apply (reachable_mInitCheck_assigned size_bits mem_bits OK NO_INIT
           UNKNOWN_ERROR DEAD_OBJECT ERROR_UNSUPPORTED Status Status
           Status_OK Status_OK toStatusT toStatusT LogMessage GetLogMessages
           ready).
  exact ready_reachable.
Defined.

Lemma setHeapBase_sequence_numbers_witness :
  heap_seqNums LogMessage (history_of ops_two_heaps) = [0; 1]
  /\ StronglySorted Z.lt (heap_seqNums LogMessage (history_of ops_two_heaps)).
Proof.
  split; [reflexivity |].
  apply (setHeapBase_sequence_numbers size_bits mem_bits OK NO_INIT
           UNKNOWN_ERROR DEAD_OBJECT ERROR_UNSUPPORTED Status Status
           Status_OK Status_OK toStatusT toStatusT LogMessage GetLogMessages
           services (history_of ops_two_heaps)
           (object_after ops_two_heaps)).
  by apply run_execution with (ops := ops_two_heaps).
Defined.

Lemma decrypt_translates_parameters_witness :
  mInitCheck Status Status ready = OK
  /\ decrypt ready None None CryptoPlugin.kMode_unlisted pattern source 0
       subSamples secure_destination None
     = Returns (UNKNOWN_ERROR, None, ready) [].
Proof.
  split; [reflexivity |].
  by apply (decrypt_translates_parameters size_bits mem_bits OK
              UNKNOWN_ERROR DEAD_OBJECT Status Status Status_OK Status_OK
              toStatusT toStatusT ready).
Defined.

Lemma not_OK_fails_fast_witness :
  mInitCheck Status Status (CryptoHalHidl_new services) <> OK
  /\ setHeapBase (CryptoHalHidl_new services) (Some heap)
     = Returns (-1, CryptoHalHidl_new services) [].
Proof.
  split; [discriminate |].
  by apply (not_OK_fails_fast size_bits mem_bits OK NO_INIT UNKNOWN_ERROR
              DEAD_OBJECT
              Status Status Status_OK Status_OK toStatusT toStatusT
              (CryptoHalHidl_new services) None None
              CryptoPlugin.kMode_AES_CTR pattern source 0 subSamples
              secure_destination None [] (Some heap) ""%string 0 0).
Defined.

Lemma decrypt_destination_type_witness :
  mInitCheck Status Status ready = OK
  /\ decrypt ready None None CryptoPlugin.kMode_AES_CTR pattern source 0
       subSamples untyped_destination None
     = Returns (UNKNOWN_ERROR, None, ready) [].
Proof.
  split; [reflexivity |].
  by apply (decrypt_destination_type size_bits mem_bits OK UNKNOWN_ERROR
              DEAD_OBJECT Status Status Status_OK Status_OK toStatusT
              toStatusT ready).
Defined.

Lemma decrypt_reports_remote_result_witness :
  32 < size_bits
  /\ decrypt ready None None CryptoPlugin.kMode_AES_CTR pattern source 0
       subSamples secure_destination (Some ""%string)
     = Returns (16, Some "done"%string, ready) [Call_decrypt sample_args].
Proof.
  split; [reflexivity |].
  destruct (decrypt_reports_remote_result size_bits mem_bits OK NO_INIT
              UNKNOWN_ERROR DEAD_OBJECT ERROR_UNSUPPORTED Status Status
              Status_OK Status_OK toStatusT toStatusT OK_value
              error_values toStatusT_value toStatusT_value ready None None
              CryptoPlugin.kMode_AES_CTR pattern source 0 subSamples
              secure_destination (Some ""%string) sample_args
              ltac:(reflexivity))
    as [_ Hlegacy].
  destruct Hlegacy as (plugin & _ & Hplugin & Hresult); [by left |].
  vm_compute in Hplugin. injection Hplugin as <-.
  apply Hresult. vm_compute. split; [discriminate | reflexivity].
Defined.

(** *** The further theorems at concrete inputs *)

Lemma ERROR_UNSUPPORTED_value : ERROR_UNSUPPORTED <> NO_INIT.
Proof. discriminate. Qed.

Lemma DEAD_OBJECT_value : DEAD_OBJECT <> NO_INIT.
Proof. discriminate. Qed.

Lemma new_reachable : reachable (CryptoHalHidl_new services).
Proof. exists services, []. constructor. Qed.

Lemma bound_reachable : reachable bound.
Proof. by apply object_after_reachable. Qed.

Lemma without_execution :
  execution (CryptoHalHidl_new no_services) history_without object_without.
Proof. by apply run_execution with (ops := ops_without). Qed.

Lemma execution_frame_witness :
  execution (CryptoHalHidl_new services) (history_of ops_two_heaps)
    (object_after ops_two_heaps)
  /\ mFactories Status Status (object_after ops_two_heaps) = [factory].
Proof.
  assert (Hexecution :
            execution (CryptoHalHidl_new services) (history_of ops_two_heaps)
              (object_after ops_two_heaps))
    by (by apply run_execution with (ops := ops_two_heaps)).
  split; [exact Hexecution |].
  destruct (execution_frame size_bits mem_bits OK NO_INIT UNKNOWN_ERROR
              DEAD_OBJECT ERROR_UNSUPPORTED Status Status Status_OK Status_OK
              toStatusT toStatusT LogMessage GetLogMessages
              (CryptoHalHidl_new services) (history_of ops_two_heaps)
              (object_after ops_two_heaps) uuid_a Hexecution)
    as [Hfactories _].
  exact Hfactories.
Defined.

Lemma setHeapBase_failure_witness :
  setHeapBase ready None = Returns (-1, ready) []
  /\ (@None HidlMemory.t = None
      \/ mHeapSeqNum Status Status ready < 0
      \/ mInitCheck Status Status ready <> OK).
Proof.
  split; [reflexivity |].
  destruct (setHeapBase_failure size_bits OK Status Status ready None (-1)
              ready [] eq_refl)
    as [[Hcause _] _].
  exact (Hcause eq_refl).
Defined.

Lemma requiresSecureDecoderComponent_true_witness :
  requiresSecureDecoderComponent OK Status Status ready "video/avc"%string
  = Returns true [Call_requiresSecureDecoderComponent "video/avc"%string]
  /\ mInitCheck Status Status ready = OK.
Proof.
  split; [reflexivity |].
  destruct (requiresSecureDecoderComponent_true OK Status Status ready
              "video/avc"%string
              [Call_requiresSecureDecoderComponent "video/avc"%string]
              eq_refl)
    as [Hstate _].
  exact Hstate.
Defined.

Lemma registered_keys_were_returned_witness :
  ~ In 5 (heap_seqNums LogMessage (history_of ops_two_heaps))
  /\ mHeapSizes Status Status (object_after ops_two_heaps) !! 5 = None.
Proof.
  assert (Hfresh : ~ In 5 (heap_seqNums LogMessage
                              (history_of ops_two_heaps))).
  { intros [Hfirst | [Hsecond | []]]; discriminate. }
  split; [exact Hfresh |].
  destruct (registered_keys_were_returned size_bits mem_bits OK NO_INIT
              UNKNOWN_ERROR DEAD_OBJECT ERROR_UNSUPPORTED Status Status
              Status_OK Status_OK toStatusT toStatusT LogMessage
              GetLogMessages services (history_of ops_two_heaps)
              (object_after ops_two_heaps) 5)
    as [Hnone _]; [| exact Hfresh | exact Hnone].
  by apply run_execution with (ops := ops_two_heaps).
Defined.


Lemma setHeapBase_clearHeapBase_witness :
  setHeapBase ready (Some heap)
  = Returns (1, second_heap) [Call_setSharedBufferBase (Some heap) 1]
  /\ exists cleared,
       clearHeapBase Status Status second_heap 1
       = Returns cleared [Call_setSharedBufferBase None 1]
       /\ mHeapSizes Status Status cleared = mHeapSizes Status Status ready.
Proof.
  split; [reflexivity |].
  destruct (setHeapBase_clearHeapBase size_bits mem_bits OK NO_INIT
              UNKNOWN_ERROR DEAD_OBJECT ERROR_UNSUPPORTED Status Status
              Status_OK Status_OK toStatusT toStatusT LogMessage
              GetLogMessages ready (Some heap) 1 second_heap
              [Call_setSharedBufferBase (Some heap) 1])
    as (memory & cleared & _ & _ & Hclear & Hsizes & _);
    [exact ready_reachable | reflexivity | discriminate |].
  exists cleared. split; [exact Hclear | exact Hsizes].
Defined.

Lemma decrypt_forwards_valid_call_witness :
  within_registered_heap Status Status ready source
  /\ exists args result,
       wire_arguments None None CryptoPlugin.kMode_AES_CTR pattern source 0
         subSamples secure_destination args
       /\ decrypt ready None None CryptoPlugin.kMode_AES_CTR pattern source 0
            subSamples secure_destination None
          = Returns result [Call_decrypt args].
Proof.
  assert (Hwithin : within_registered_heap Status Status ready source).
  { exists 4096. split; [reflexivity |]. vm_compute. discriminate. }
  split; [exact Hwithin |].
  apply (decrypt_forwards_valid_call size_bits mem_bits OK NO_INIT
           UNKNOWN_ERROR DEAD_OBJECT ERROR_UNSUPPORTED Status Status
           Status_OK Status_OK toStatusT toStatusT LogMessage GetLogMessages
           ready (plugin_1_0 None) None None CryptoPlugin.kMode_AES_CTR
           pattern source 0 subSamples secure_destination None).
  - unfold size_bits, mem_bits. lia.
  - exact ready_reachable.
  - reflexivity.
  - reflexivity.
  - discriminate.
  - simpl. lia.
  - exact Hwithin.
  - left. reflexivity.
Defined.

Lemma constructor_discovery_witness :
  NO_INIT <> ERROR_UNSUPPORTED
  /\ (mInitCheck Status Status (CryptoHalHidl_new no_services)
      = ERROR_UNSUPPORTED
      <-> mFactories Status Status (CryptoHalHidl_new no_services) = []).
Proof.
  split; [exact NO_INIT_value |].
  destruct (constructor_discovery NO_INIT ERROR_UNSUPPORTED Status Status
              NO_INIT_value no_services)
    as (_ & Hunsupported & _).
  exact Hunsupported.
Defined.

Lemma checkSharedBuffer_exact_witness :
  size_t_offset size_bits source
  /\ (checkSharedBuffer ready source = OK
      <-> within_registered_heap Status Status ready source).
Proof.
  assert (Htyped : size_t_offset size_bits source).
  { vm_compute. repeat split; discriminate. }
  split; [exact Htyped |].
  destruct (checkSharedBuffer_exact size_bits mem_bits OK NO_INIT
              UNKNOWN_ERROR DEAD_OBJECT ERROR_UNSUPPORTED Status Status
              Status_OK Status_OK toStatusT toStatusT LogMessage
              GetLogMessages OK_value error_values ready source)
    as [Hexact _];
    [unfold size_bits, mem_bits; lia | exact ready_reachable | exact Htyped
    | exact Hexact].
Defined.

Lemma registered_heap_accepts_its_buffers_witness :
  setHeapBase bound (Some heap)
  = Returns (0, ready) [Call_setSharedBufferBase (Some heap) 0]
  /\ (checkSharedBuffer ready source = OK
      <-> V1_0.offset source + V1_0.size source
          <= wrap_unsigned size_bits (HidlMemory.size heap)).
Proof.
  split; [reflexivity |].
  apply (registered_heap_accepts_its_buffers size_bits mem_bits OK NO_INIT
           UNKNOWN_ERROR DEAD_OBJECT ERROR_UNSUPPORTED Status Status
           Status_OK Status_OK toStatusT toStatusT LogMessage GetLogMessages
           OK_value error_values bound heap 0 ready
           [Call_setSharedBufferBase (Some heap) 0] source).
  - unfold size_bits, mem_bits. lia.
  - exact bound_reachable.
  - reflexivity.
  - discriminate.
  - vm_compute. repeat split; discriminate.
  - reflexivity.
Defined.

Lemma lifecycle_moves_witness :
  step (CryptoHalHidl_new services) (Op_createPlugin LogMessage uuid_a [])
  = Returns (Result_status LogMessage OK, bound)
      (calls_of
         (step (CryptoHalHidl_new services)
            (Op_createPlugin LogMessage uuid_a [])))
  /\ Result_status LogMessage OK
     = Result_status LogMessage (mInitCheck Status Status bound).
Proof.
  assert (Hstep :
            step (CryptoHalHidl_new services)
              (Op_createPlugin LogMessage uuid_a [])
            = Returns (Result_status LogMessage OK, bound)
                (calls_of
                   (step (CryptoHalHidl_new services)
                      (Op_createPlugin LogMessage uuid_a []))))
    by reflexivity.
  split; [exact Hstep |].
  destruct (lifecycle_moves size_bits mem_bits OK NO_INIT UNKNOWN_ERROR
              DEAD_OBJECT ERROR_UNSUPPORTED Status Status Status_OK Status_OK
              toStatusT toStatusT LogMessage GetLogMessages OK_value
              DEAD_OBJECT_value (CryptoHalHidl_new services)
              (Op_createPlugin LogMessage uuid_a [])
              (Result_status LogMessage OK) bound
              (calls_of
                 (step (CryptoHalHidl_new services)
                    (Op_createPlugin LogMessage uuid_a [])))
              Hstep)
    as [Hstatus _].
  exact Hstatus.
Defined.

Lemma failure_states_are_final_witness :
  execution (CryptoHalHidl_new no_services) history_without object_without
  /\ (mInitCheck Status Status (CryptoHalHidl_new no_services)
      = ERROR_UNSUPPORTED ->
      mInitCheck Status Status object_without = ERROR_UNSUPPORTED
      \/ mInitCheck Status Status object_without = DEAD_OBJECT).
Proof.
  split; [exact without_execution |].
  destruct (failure_states_are_final size_bits mem_bits OK NO_INIT
              UNKNOWN_ERROR DEAD_OBJECT ERROR_UNSUPPORTED Status Status
              Status_OK Status_OK toStatusT toStatusT LogMessage
              GetLogMessages OK_value error_values ERROR_UNSUPPORTED_value
              DEAD_OBJECT_value (CryptoHalHidl_new no_services)
              history_without object_without without_execution)
    as (_ & Hunsupported & _).
  exact Hunsupported.
Defined.

Lemma aborts_only_without_plugin_witness :
  through_plugin LogMessage op_decrypt = true
  /\ step unbound op_decrypt = Aborts []
  /\ mInitCheck Status Status unbound = OK
  /\ mPlugin Status Status unbound = None.
Proof.
  assert (Hstep : step unbound op_decrypt = Aborts []) by reflexivity.
  split; [reflexivity |]. split; [exact Hstep |].
  destruct (aborts_only_without_plugin size_bits mem_bits OK NO_INIT
              UNKNOWN_ERROR DEAD_OBJECT ERROR_UNSUPPORTED Status Status
              Status_OK Status_OK toStatusT toStatusT LogMessage
              GetLogMessages unbound op_decrypt [] eq_refl Hstep)
    as (Hstate & Hplugin & _).
  split; [exact Hstate | exact Hplugin].
Defined.

Lemma no_factories_is_inert_witness :
  makeCryptoFactories Status Status no_services = []
  /\ object_without = CryptoHalHidl_new no_services.
Proof.
  assert (Hempty : makeCryptoFactories Status Status no_services = [])
    by reflexivity.
  split; [exact Hempty |].
  destruct (no_factories_is_inert size_bits mem_bits OK NO_INIT UNKNOWN_ERROR
              DEAD_OBJECT ERROR_UNSUPPORTED Status Status Status_OK Status_OK
              toStatusT toStatusT LogMessage GetLogMessages OK_value
              error_values no_services history_without object_without
              Hempty without_execution)
    as [Hfixed _].
  exact Hfixed.
Defined.

Lemma unsupported_scheme_is_rejected_witness :
  isCryptoSchemeSupported Status Status (CryptoHalHidl_new services) uuid_c
  = Returns false [Call_Factory_isCryptoSchemeSupported 0 uuid_c]
  /\ exists this',
       createPlugin (CryptoHalHidl_new services) uuid_c []
       = Returns (ERROR_UNSUPPORTED, this')
           [Call_Factory_isCryptoSchemeSupported 0 uuid_c].
Proof.
  assert (Hasked :
            isCryptoSchemeSupported Status Status (CryptoHalHidl_new services)
              uuid_c
            = Returns false [Call_Factory_isCryptoSchemeSupported 0 uuid_c])
    by reflexivity.
  split; [exact Hasked |].
  destruct (unsupported_scheme_is_rejected size_bits mem_bits OK NO_INIT
              UNKNOWN_ERROR DEAD_OBJECT ERROR_UNSUPPORTED Status Status
              Status_OK Status_OK toStatusT toStatusT LogMessage
              GetLogMessages OK_value error_values ERROR_UNSUPPORTED_value
              (CryptoHalHidl_new services) uuid_c []
              [Call_Factory_isCryptoSchemeSupported 0 uuid_c]
              new_reachable Hasked)
    as (this' & Hcreate & _).
  exists this'. exact Hcreate.
Defined.

Lemma createPlugin_destroyPlugin_witness :
  mInitCheck Status Status (CryptoHalHidl_new services) = NO_INIT
  /\ createPlugin (CryptoHalHidl_new services) uuid_a []
     = Returns (OK, bound)
         (calls_of (createPlugin (CryptoHalHidl_new services) uuid_a []))
  /\ destroyPlugin OK NO_INIT Status Status bound
     = Returns (OK, CryptoHalHidl_new services) [].
Proof.
  assert (Hstate :
            mInitCheck Status Status (CryptoHalHidl_new services) = NO_INIT)
    by reflexivity.
  assert (Hcreate :
            createPlugin (CryptoHalHidl_new services) uuid_a []
            = Returns (OK, bound)
                (calls_of
                   (createPlugin (CryptoHalHidl_new services) uuid_a [])))
    by reflexivity.
  split_and!; [exact Hstate | exact Hcreate |].
  destruct (createPlugin_destroyPlugin size_bits mem_bits OK NO_INIT
              UNKNOWN_ERROR DEAD_OBJECT ERROR_UNSUPPORTED Status Status
              Status_OK Status_OK toStatusT toStatusT LogMessage
              GetLogMessages OK_value error_values ERROR_UNSUPPORTED_value
              DEAD_OBJECT_value (CryptoHalHidl_new services) uuid_a [] bound
              (calls_of (createPlugin (CryptoHalHidl_new services) uuid_a []))
              new_reachable Hstate Hcreate)
    as (_ & _ & Hdestroy).
  exact Hdestroy.
Defined.

End Android.
